(** * The authentication-state manager of src/lib/supabaseAuth.ts

    A shallow embedding of the [SupabaseAuth] class: its [AuthState], its
    listener list, and its asynchronous methods.  An [async] method is a
    sequence of synchronous segments separated by [await]s on the auth
    provider or the profile table; the embedding keeps that structure, so
    that a method can be run to completion on its own or interleaved with
    other methods, as the JavaScript event loop allows. *)

From stdpp Require Import base option list strings gmap.

Local Open Scope string_scope.

(** ** Data model *)

(** [role: 'user' | 'admin' | 'manager'] *)
Inductive Role : Type := role_user | role_admin | role_manager.

#[global] Instance Role_eq_dec : EqDecision Role.
Proof. solve_decision. Defined.

(** [interface AuthUser] (supabaseAuth.ts, lines 5-15). *)
Module AuthUser.
Record t : Type := mk {
    id : string;
    email : string;
    name : string;
    company : string;
    position : string;
    phone : string;
    role : Role;
    department : option string;
    avatar_url : option string
}.
End AuthUser.

#[global] Instance AuthUser_eq_dec : EqDecision AuthUser.t.
Proof. solve_decision. Defined.

(** [interface AuthState] (lines 17-21). *)
Record AuthState : Type := mkAuthState {
  user : option AuthUser.t;
  isAuthenticated : bool;
  isOnboardingComplete : bool
}.

#[global] Instance AuthState_eq_dec : EqDecision AuthState.
Proof. solve_decision. Defined.

(** [Partial<AuthUser>]: every field may be left out.  [None] is a field
    that is not in the object; for the two nullable fields [Some None] is a
    field that is present and [null].  A field that is present and
    [undefined] is not represented. *)
Module Partial.
Record t : Type := mk {
    id : option string;
    email : option string;
    name : option string;
    company : option string;
    position : option string;
    phone : option string;
    role : option Role;
    department : option (option string);
    avatar_url : option (option string)
}.
Definition empty : t := mk None None None None None None None None None.
End Partial.

(** Modelled from the spec: the row type [Tables<'profiles'>] is declared in
    src/types/supabase.ts, which is not among the sources.  The columns are
    the ones supabaseAuth.ts reads and writes; the text columns the code
    guards with [|| ''] are nullable, [role] is assigned to [AuthUser.role]
    unchanged, [department] and [avatar_url] are assigned to nullable
    fields unchanged. *)
Module Profile.
Record t : Type := mk {
    id : string;
    email : string;
    full_name : option string;
    company : option string;
    position : option string;
    phone : option string;
    role : Role;
    department : option string;
    avatar_url : option string
}.
End Profile.

(** The object literal passed to [.update(...)] in [updateProfile]
    (lines 244-250). *)
Module ProfileUpdate.
Record t : Type := mk {
    full_name : string;
    role : Role;
    department : option string;
    avatar_url : option string;
    updated_at : string
}.
End ProfileUpdate.

(** The provider's [User]: the fields the manager reads.  [email] is
    optional in the provider's type, and the code reads [user_metadata]
    through [?.]. *)
Module User.
Record t : Type := mk {
    id : string;
    email : option string;
    user_metadata : option (gmap string string)
}.
End User.

Record Session : Type := mkSession { session_user : option User.t }.

(** The argument of [register] (lines 158-166). *)
Module UserData.
Record t : Type := mk {
    email : string;
    password : string;
    name : string;
    company : string;
    position : string;
    phone : string;
    department : string
}.
End UserData.

(** The [error] member of a provider or table response. *)
Record ApiError : Type := mkApiError { code : string; message : string }.

(** [{ data, error }] as returned by the table queries. *)
Record Response (D : Type) : Type := mkResponse {
  data : D;
  error : option ApiError
}.
Arguments mkResponse {D} _ _.
Arguments data {D} _.
Arguments error {D} _.

(** What [catch (error: any)] receives; [message] may be missing. *)
Record Exn : Type := mkExn { exn_message : option string }.

(** [{ success, error? }], and [{ success, data?, error? }] for
    [updateProfile]. *)
Record Result : Type := mkResult {
  success : bool;
  result_error : option string
}.

Record ProfileResult : Type := mkProfileResult {
  p_success : bool;
  p_data : option AuthUser.t;
  p_error : option string
}.

(** ** JavaScript's [||] on the values that occur *)

(** A string is truthy when it is not empty. *)
Definition truthy (s : string) : bool := negb (String.eqb s "").

(** [a || b] where [a] is a string that may be [undefined] or [null]. *)
Definition or_else (a : option string) (b : string) : string :=
  match a with
  | Some s => if truthy s then s else b
  | None => b
  end.

(** [a || b] where both sides may be [null]: the result is [a] when [a]
    is truthy and [b], whatever it is, otherwise. *)
Definition or_nullable (a : option string) (b : option string) : option string :=
  match a with
  | Some s => if truthy s then Some s else b
  | None => b
  end.

(** [user.user_metadata?.key] *)
Definition metadata_get (u : User.t) (key : string) : option string :=
  match User.user_metadata u with
  | Some md => md !! key
  | None => None
  end.

(** [{ ...currentUser, ...updates }] (lines 260-263): every field that is
    present in [updates] replaces the field of [currentUser]. *)
Definition spread (currentUser : AuthUser.t) (updates : Partial.t) : AuthUser.t :=
  {| AuthUser.id := default (AuthUser.id currentUser) (Partial.id updates);
     AuthUser.email := default (AuthUser.email currentUser) (Partial.email updates);
     AuthUser.name := default (AuthUser.name currentUser) (Partial.name updates);
     AuthUser.company := default (AuthUser.company currentUser) (Partial.company updates);
     AuthUser.position := default (AuthUser.position currentUser) (Partial.position updates);
     AuthUser.phone := default (AuthUser.phone currentUser) (Partial.phone updates);
     AuthUser.role := default (AuthUser.role currentUser) (Partial.role updates);
     AuthUser.department :=
       default (AuthUser.department currentUser) (Partial.department updates);
     AuthUser.avatar_url :=
       default (AuthUser.avatar_url currentUser) (Partial.avatar_url updates) |}.

(** ** The manager object *)

(** A listener is a function object; [l !== listener] compares identities,
    so a listener is modelled by its identity.  Listeners are taken to
    return normally and not to call back into the manager. *)
Definition Listener : Type := nat.

(** The two private fields of [class SupabaseAuth] (lines 25-30), and what
    the object has done so far: the listener invocations, oldest first,
    each with the state it was handed; the [console.error] labels; and
    whether the [onAuthStateChange] callback is registered. *)
Record SupabaseAuth : Type := mkSupabaseAuth {
  authState : AuthState;
  listeners : list Listener;
  notified : list (Listener * AuthState);
  console : list string;
  authHandler : bool
}.

Definition emptyAuthState : AuthState :=
  {| user := None; isAuthenticated := false; isOnboardingComplete := false |}.

(** The field initialisers of the class. *)
Definition fresh : SupabaseAuth :=
  {| authState := emptyAuthState; listeners := []; notified := [];
     console := []; authHandler := false |}.

Definition set_authState (s : AuthState) (m : SupabaseAuth) : SupabaseAuth :=
  {| authState := s; listeners := listeners m; notified := notified m;
     console := console m; authHandler := authHandler m |}.

(** [this.authState.user = u]: the other two fields are not written. *)
Definition set_authState_user (u : AuthUser.t) (m : SupabaseAuth) : SupabaseAuth :=
  set_authState
    {| user := Some u;
       isAuthenticated := isAuthenticated (authState m);
       isOnboardingComplete := isOnboardingComplete (authState m) |} m.

Definition set_listeners (ls : list Listener) (m : SupabaseAuth) : SupabaseAuth :=
  {| authState := authState m; listeners := ls; notified := notified m;
     console := console m; authHandler := authHandler m |}.

Definition console_error (label : string) (m : SupabaseAuth) : SupabaseAuth :=
  {| authState := authState m; listeners := listeners m; notified := notified m;
     console := console m ++ [label]; authHandler := authHandler m |}.

Definition register_authHandler (m : SupabaseAuth) : SupabaseAuth :=
  {| authState := authState m; listeners := listeners m; notified := notified m;
     console := console m; authHandler := true |}.

(** [notifyListeners] (lines 125-127): [forEach] walks the array from the
    front and hands every listener the current state. *)
Definition notifyListeners (m : SupabaseAuth) : SupabaseAuth :=
  {| authState := authState m; listeners := listeners m;
     notified := notified m ++ map (fun listener => (listener, authState m)) (listeners m);
     console := console m; authHandler := authHandler m |}.

(** [clearAuthState] (lines 116-123). *)
Definition clearAuthState (m : SupabaseAuth) : SupabaseAuth :=
  notifyListeners (set_authState emptyAuthState m).

(** The closure [subscribe] returns (lines 131-133). *)
Definition unsubscribe (listener : Listener) (m : SupabaseAuth) : SupabaseAuth :=
  set_listeners (filter (fun l => l ≠ listener) (listeners m)) m.

(** [subscribe] (lines 129-134): [push], then return the closure. *)
Definition subscribe (listener : Listener) (m : SupabaseAuth)
  : SupabaseAuth * (SupabaseAuth -> SupabaseAuth) :=
  (set_listeners (listeners m ++ [listener]) m, unsubscribe listener).

(** The accessors (lines 290-300). *)
Definition getCurrentUser (m : SupabaseAuth) : option AuthUser.t := user (authState m).
Definition getIsAuthenticated (m : SupabaseAuth) : bool := isAuthenticated (authState m).
Definition getAuthState (m : SupabaseAuth) : AuthState := authState m.

(** ** Asynchronous methods *)

(** The requests the manager sends: the methods of [supabase.auth] and the
    three queries on [supabase.from('profiles')]. *)
Inductive Call : Type :=
| auth_getSession
| auth_signInWithPassword (email password : string)
| auth_signUp (email password : string) (options_data : gmap string string)
| auth_signOut
| auth_resetPasswordForEmail (email redirectTo : string)
| profiles_select_single (eq_id : string)
| profiles_insert (row : Profile.t)
| profiles_update_single (values : ProfileUpdate.t) (eq_id : string).

(** What each request resolves to: [data.session] for [getSession],
    [{ data: { user }, error }] for sign-in and sign-up, [{ error }] for
    sign-out, password reset and insert, [{ data, error }] with a row for
    the queries that end in [.single()]. *)
Definition Reply (c : Call) : Type :=
  match c with
  | auth_getSession => option Session
  | auth_signInWithPassword _ _ => Response (option User.t)
  | auth_signUp _ _ _ => Response (option User.t)
  | auth_signOut => Response unit
  | auth_resetPasswordForEmail _ _ => Response unit
  | profiles_select_single _ => Response (option Profile.t)
  | profiles_insert _ => Response unit
  | profiles_update_single _ _ => Response (option Profile.t)
  end.

(** A promise settles: it is fulfilled with a value or rejected, and a
    rejected [await] inside [try] runs the [catch] block. *)
Inductive Settled (X : Type) : Type :=
| Fulfilled (x : X)
| Rejected (exn : Exn).
Arguments Fulfilled {X} _.
Arguments Rejected {X} _.

(** An [async] body runs synchronously on the manager until it returns
    ([Done]) or reaches an [await] on a request ([Wait]); when the request
    settles, the rest of the body runs from whatever the manager is then. *)
#[local] Set Warnings "-register-all".
Inductive Susp (R : Type) : Type :=
| Done (r : R)
| Wait (c : Call) (k : Settled (Reply c) -> SupabaseAuth -> SupabaseAuth * Susp R).
Arguments Done {R} _.
Arguments Wait {R} _ _.

Definition Task (R : Type) : Type := SupabaseAuth -> SupabaseAuth * Susp R.

Definition ret {R} (r : R) : Task R := fun m => (m, Done r).

(** A synchronous statement on [this]. *)
Definition sync (f : SupabaseAuth -> SupabaseAuth) : Task unit :=
  fun m => (f m, Done tt).

(** Reading [this.authState]. *)
Definition read_authState : Task AuthState := fun m => (m, Done (authState m)).

Definition await (c : Call) : Task (Settled (Reply c)) :=
  fun m => (m, Wait c (fun settled m' => (m', Done settled))).

Fixpoint bind_susp {A B} (s : Susp A) (f : A -> Task B) (m : SupabaseAuth)
  : SupabaseAuth * Susp B :=
  match s with
  | Done a => f a m
  | Wait c k =>
      (m, Wait c (fun settled m' =>
                    let (m'', s') := k settled m' in bind_susp s' f m''))
  end.

(** [const a = await t; f(a)] where [t] is another method of the manager.
    The rest runs in the turn in which [t] returns: the extra tick
    JavaScript takes there separates no read of the manager from a write. *)
Definition bind {A B} (t : Task A) (f : A -> Task B) : Task B :=
  fun m => let (m', s) := t m in bind_susp s f m'.

Notation "x <- t ;; k" := (bind t (fun x => k))
  (at level 100, t at next level, right associativity).
Notation "t ;; k" := (bind t (fun _ => k))
  (at level 100, right associativity).

(** [error && error.code !== 'PGRST116'] (line 70). *)
Definition fatal (error : option ApiError) : bool :=
  match error with
  | Some e => negb (String.eqb (code e) "PGRST116")
  | None => false
  end.

(** The state built from a profile row (lines 76-90). *)
Definition state_of_profile (profile : Profile.t) (user : User.t) : AuthState :=
  {| user := Some
       {| AuthUser.id := Profile.id profile;
          AuthUser.email := Profile.email profile;
          AuthUser.name := or_else (Profile.full_name profile) (or_else (User.email user) "");
          AuthUser.company := or_else (Profile.company profile) "";
          AuthUser.position := or_else (Profile.position profile) "";
          AuthUser.phone := or_else (Profile.phone profile) "";
          AuthUser.role := Profile.role profile;
          AuthUser.department := Profile.department profile;
          AuthUser.avatar_url := Profile.avatar_url profile |};
     isAuthenticated := true;
     isOnboardingComplete := true |}.

(** The state built from the session alone (lines 93-107). *)
Definition state_of_session (user : User.t) : AuthState :=
  {| user := Some
       {| AuthUser.id := User.id user;
          AuthUser.email := or_else (User.email user) "";
          AuthUser.name :=
            or_else (metadata_get user "full_name") (or_else (User.email user) "");
          AuthUser.company := or_else (metadata_get user "company") "";
          AuthUser.position := or_else (metadata_get user "position") "";
          AuthUser.phone := or_else (metadata_get user "phone") "";
          AuthUser.role := role_user;
          AuthUser.department := None;
          AuthUser.avatar_url := None |};
     isAuthenticated := true;
     isOnboardingComplete := false |}.

(** [setUserFromSession] (lines 61-114). *)
Definition setUserFromSession (user : User.t) : Task unit :=
  settled <- await (profiles_select_single (User.id user)) ;;
  match settled with
  | Rejected _ => sync (console_error "Error setting user from session:")
  | Fulfilled response =>
      if fatal (error response) then sync (console_error "Profile fetch error:")
      else
        sync (set_authState
                match data response with
                | Some profile => state_of_profile profile user
                | None => state_of_session user
                end) ;;
        sync notifyListeners
  end.

(** The callback handed to [onAuthStateChange] (lines 52-58). *)
Definition onAuthStateChange (event : string) (session : option Session) : Task unit :=
  match String.eqb event "SIGNED_IN", session ≫= session_user with
  | true, Some user => setUserFromSession user
  | _, _ => if String.eqb event "SIGNED_OUT" then sync clearAuthState else ret tt
  end.

(** [initializeAuth] (lines 43-59), which the constructor starts without
    awaiting it.  Nothing catches a rejected [getSession]. *)
Definition initializeAuth : Task unit :=
  settled <- await auth_getSession ;;
  match settled with
  | Rejected _ => ret tt
  | Fulfilled session =>
      match session ≫= session_user with
      | Some user => setUserFromSession user
      | None => ret tt
      end ;;
      sync register_authHandler
  end.

(** [login] (lines 136-156). *)
Definition login (email password : string) : Task Result :=
  settled <- await (auth_signInWithPassword email password) ;;
  match settled with
  | Rejected exn =>
      ret {| success := false;
             result_error := Some (or_else (exn_message exn) "ログインに失敗しました") |}
  | Fulfilled response =>
      match error response with
      | Some e => ret {| success := false; result_error := Some (message e) |}
      | None =>
          match data response with
          | Some user =>
              setUserFromSession user ;;
              ret {| success := true; result_error := None |}
          | None =>
              ret {| success := false; result_error := Some "ログインに失敗しました" |}
          end
      end
  end.

(** The [options.data] object of the sign-up request (lines 173-179). *)
Definition signUp_data (userData : UserData.t) : gmap string string :=
  list_to_map
    [("full_name", UserData.name userData);
     ("company", UserData.company userData);
     ("position", UserData.position userData);
     ("phone", UserData.phone userData);
     ("department", UserData.department userData)].

(** The row [register] inserts (lines 191-201). *)
Definition new_profile (id : string) (userData : UserData.t) : Profile.t :=
  {| Profile.id := id;
     Profile.email := UserData.email userData;
     Profile.full_name := Some (UserData.name userData);
     Profile.company := Some (UserData.company userData);
     Profile.position := Some (UserData.position userData);
     Profile.phone := Some (UserData.phone userData);
     Profile.department := Some (UserData.department userData);
     Profile.role := role_user;
     Profile.avatar_url := None |}.

(** [register] (lines 158-217). *)
Definition register (userData : UserData.t) : Task Result :=
  settled <- await (auth_signUp (UserData.email userData) (UserData.password userData)
                      (signUp_data userData)) ;;
  match settled with
  | Rejected exn =>
      ret {| success := false;
             result_error := Some (or_else (exn_message exn) "登録に失敗しました") |}
  | Fulfilled response =>
      match error response with
      | Some e => ret {| success := false; result_error := Some (message e) |}
      | None =>
          match data response with
          | Some user =>
              inserted <- await (profiles_insert (new_profile (User.id user) userData)) ;;
              match inserted with
              | Rejected exn =>
                  ret {| success := false;
                         result_error :=
                           Some (or_else (exn_message exn) "登録に失敗しました") |}
              | Fulfilled insertResponse =>
                  match error insertResponse with
                  | Some _ => sync (console_error "Profile creation error:")
                  | None => ret tt
                  end ;;
                  setUserFromSession user ;;
                  ret {| success := true; result_error := None |}
              end
          | None =>
              ret {| success := false; result_error := Some "登録に失敗しました" |}
          end
      end
  end.

(** [logout] (lines 219-232). *)
Definition logout : Task Result :=
  settled <- await auth_signOut ;;
  match settled with
  | Rejected exn =>
      ret {| success := false;
             result_error := Some (or_else (exn_message exn) "ログアウトに失敗しました") |}
  | Fulfilled response =>
      match error response with
      | Some e => ret {| success := false; result_error := Some (message e) |}
      | None =>
          sync clearAuthState ;;
          ret {| success := true; result_error := None |}
      end
  end.

(** The object handed to [.update(...)] (lines 244-250); [now] is
    [new Date().toISOString()]. *)
Definition update_values (updates : Partial.t) (currentUser : AuthUser.t) (now : string)
  : ProfileUpdate.t :=
  {| ProfileUpdate.full_name := or_else (Partial.name updates) (AuthUser.name currentUser);
     ProfileUpdate.role := default (AuthUser.role currentUser) (Partial.role updates);
     ProfileUpdate.department :=
       or_nullable (mjoin (Partial.department updates)) (AuthUser.department currentUser);
     ProfileUpdate.avatar_url :=
       or_nullable (mjoin (Partial.avatar_url updates)) (AuthUser.avatar_url currentUser);
     ProfileUpdate.updated_at := now |}.

(** [updateProfile] (lines 234-272).  [currentUser] is read before the
    [await]; the assignment after it writes [this.authState.user] only. *)
Definition updateProfile (updates : Partial.t) (now : string) : Task ProfileResult :=
  state <- read_authState ;;
  match user state with
  | None =>
      ret {| p_success := false; p_data := None;
             p_error := Some "ユーザーが見つかりません" |}
  | Some currentUser =>
      settled <- await (profiles_update_single (update_values updates currentUser now)
                          (AuthUser.id currentUser)) ;;
      match settled with
      | Rejected exn =>
          ret {| p_success := false; p_data := None;
                 p_error := Some (or_else (exn_message exn) "プロフィール更新に失敗しました") |}
      | Fulfilled response =>
          match error response with
          | Some e => ret {| p_success := false; p_data := None; p_error := Some (message e) |}
          | None =>
              let updatedUser := spread currentUser updates in
              sync (set_authState_user updatedUser) ;;
              sync notifyListeners ;;
              ret {| p_success := true; p_data := Some updatedUser; p_error := None |}
          end
      end
  end.

(** [resetPassword] (lines 274-288); [origin] is [window.location.origin]. *)
Definition resetPassword (email origin : string) : Task Result :=
  settled <- await (auth_resetPasswordForEmail email (origin ++ "/reset-password")) ;;
  match settled with
  | Rejected exn =>
      ret {| success := false;
             result_error :=
               Some (or_else (exn_message exn) "パスワードリセットに失敗しました") |}
  | Fulfilled response =>
      match error response with
      | Some e => ret {| success := false; result_error := Some (message e) |}
      | None => ret {| success := true; result_error := None |}
      end
  end.

(** ** Running a method to completion *)

(** The outside world for one run: how each request settles.  No method
    sends the same request twice in one run. *)
Definition Env : Type := forall c : Call, Settled (Reply c).

(** Resume a suspended body until it returns, recording the requests in
    the order they were sent.  No other code runs in between. *)
Fixpoint exec {R} (s : Susp R) (env : Env) (m : SupabaseAuth) (sent : list Call)
  : SupabaseAuth * list Call * R :=
  match s with
  | Done r => (m, sent, r)
  | Wait c k => let (m', s') := k (env c) m in exec s' env m' (sent ++ [c])
  end.

Definition run {R} (t : Task R) (env : Env) (m : SupabaseAuth)
  : SupabaseAuth * list Call * R :=
  let (m', s) := t m in exec s env m' [].

Definition state_after {R} (x : SupabaseAuth * list Call * R) : SupabaseAuth := x.1.1.
Definition requests {R} (x : SupabaseAuth * list Call * R) : list Call := x.1.2.
Definition returned {R} (x : SupabaseAuth * list Call * R) : R := x.2.
Arguments state_after {R} x /.
Arguments requests {R} x /.
Arguments returned {R} x /.

(** A concrete outside world, one answer per kind of request. *)
Record Answers : Type := mkAnswers {
  on_getSession : Settled (option Session);
  on_signInWithPassword : Settled (Response (option User.t));
  on_signUp : Settled (Response (option User.t));
  on_signOut : Settled (Response unit);
  on_resetPasswordForEmail : Settled (Response unit);
  on_select : Settled (Response (option Profile.t));
  on_insert : Settled (Response unit);
  on_update : Settled (Response (option Profile.t))
}.

Definition env_of (a : Answers) : Env :=
  fun c =>
    match c as c0 return Settled (Reply c0) with
    | auth_getSession => on_getSession a
    | auth_signInWithPassword _ _ => on_signInWithPassword a
    | auth_signUp _ _ _ => on_signUp a
    | auth_signOut => on_signOut a
    | auth_resetPasswordForEmail _ _ => on_resetPasswordForEmail a
    | profiles_select_single _ => on_select a
    | profiles_insert _ => on_insert a
    | profiles_update_single _ _ => on_update a
    end.

(** ** The event loop *)

(** What can happen to the manager from outside: a caller invokes a public
    method, the provider emits an auth event, a caller subscribes, or a
    caller invokes the closure [subscribe] gave it. *)
Inductive Op : Type :=
| Login (email password : string)
| Register (userData : UserData.t)
| Logout
| UpdateProfile (updates : Partial.t) (now : string)
| ResetPassword (email origin : string)
| AuthChange (event : string) (session : option Session)
| Subscribe (listener : Listener)
| Unsubscribe (listener : Listener).

Definition forget {R} (t : Task R) : Task unit := t ;; ret tt.

(** The provider calls the [onAuthStateChange] callback only once
    [initializeAuth] has registered it. *)
Definition task_of (op : Op) : Task unit :=
  match op with
  | Login email password => forget (login email password)
  | Register userData => forget (register userData)
  | Logout => forget logout
  | UpdateProfile updates now => forget (updateProfile updates now)
  | ResetPassword email origin => forget (resetPassword email origin)
  | AuthChange event session =>
      fun m => if authHandler m then onAuthStateChange event session m else ret tt m
  | Subscribe listener => sync (fun m => (subscribe listener m).1)
  | Unsubscribe listener => sync (unsubscribe listener)
  end.

(** The manager together with the bodies that are waiting on a request. *)
Record Loop : Type := mkLoop {
  manager : SupabaseAuth;
  pending : list (Susp unit)
}.

Definition park (s : Susp unit) : list (Susp unit) :=
  match s with
  | Done _ => []
  | Wait _ _ => [s]
  end.

(** One turn of the loop: start an operation and run it up to its first
    [await], or settle the request of the [i]-th waiting body and run that
    body up to its next [await]. *)
Inductive Turn : Type :=
| Invoke (op : Op)
| Settle (i : nat) (env : Env).

Definition turn (l : Loop) (t : Turn) : Loop :=
  match t with
  | Invoke op =>
      let (m', s) := task_of op (manager l) in
      {| manager := m'; pending := pending l ++ park s |}
  | Settle i env =>
      match pending l !! i with
      | Some (Wait c k) =>
          let (m', s) := k (env c) (manager l) in
          {| manager := m'; pending := delete i (pending l) ++ park s |}
      | _ => l
      end
  end.

(** [new SupabaseAuth()]: the field initialisers, then the constructor
    starts [initializeAuth]. *)
Definition new_SupabaseAuth : Loop :=
  let (m, s) := initializeAuth fresh in {| manager := m; pending := park s |}.

Definition schedule (turns : list Turn) : Loop := foldl turn new_SupabaseAuth turns.

(** The loop when every operation is run to completion before the next
    one starts. *)
Definition run_op (m : SupabaseAuth) (step : Op * Env) : SupabaseAuth :=
  state_after (run (task_of step.1) step.2 m).

Definition constructed (env : Env) : SupabaseAuth :=
  state_after (run initializeAuth env fresh).

Definition one_at_a_time (env : Env) (steps : list (Op * Env)) : SupabaseAuth :=
  foldl run_op (constructed env) steps.

(** ** Predicates *)

(** [isAuthenticated == (user is present)]. *)
Definition consistent (s : AuthState) : Prop :=
  isAuthenticated s = bool_decide (is_Some (user s)).

(** A step that does not break the invariant. *)
Definition keeps_consistent (m m' : SupabaseAuth) : Prop :=
  consistent (authState m) -> consistent (authState m').

(** The session's e-mail address, empty when the session has none. *)
Definition session_email (sessionUser : User.t) : string :=
  default "" (User.email sessionUser).

(** What the specification says of a state resolved from a profile row:
    onboarding complete, the session user's id, and the row's name unless
    that is empty, in which case the session's e-mail address. *)
Definition from_profile (profile : Profile.t) (sessionUser : User.t) (s : AuthState) : Prop :=
  isOnboardingComplete s = true /\
  exists u, user s = Some u /\
    AuthUser.id u = User.id sessionUser /\
    AuthUser.name u =
      match Profile.full_name profile with
      | Some n => if decide (n = "") then session_email sessionUser else n
      | None => session_email sessionUser
      end.

(** What the specification says of a state resolved without a profile
    row: the four text fields come from the metadata map and are empty
    when the map has no entry. *)
Definition from_metadata_only (sessionUser : User.t) (s : AuthState) : Prop :=
  isOnboardingComplete s = false /\
  exists u, user s = Some u /\
    AuthUser.name u = default "" (metadata_get sessionUser "full_name") /\
    AuthUser.company u = default "" (metadata_get sessionUser "company") /\
    AuthUser.position u = default "" (metadata_get sessionUser "position") /\
    AuthUser.phone u = default "" (metadata_get sessionUser "phone") /\
    AuthUser.role u = role_user /\
    AuthUser.department u = None /\
    AuthUser.avatar_url u = None.

(** The same, with the name as the code derives it: the metadata entry
    unless it is missing or empty, then the session's e-mail address. *)
Definition from_session (sessionUser : User.t) (s : AuthState) : Prop :=
  isOnboardingComplete s = false /\
  exists u, user s = Some u /\
    AuthUser.name u =
      match metadata_get sessionUser "full_name" with
      | Some n => if decide (n = "") then session_email sessionUser else n
      | None => session_email sessionUser
      end /\
    AuthUser.company u = default "" (metadata_get sessionUser "company") /\
    AuthUser.position u = default "" (metadata_get sessionUser "position") /\
    AuthUser.phone u = default "" (metadata_get sessionUser "phone") /\
    AuthUser.role u = role_user /\
    AuthUser.department u = None /\
    AuthUser.avatar_url u = None.

(** The [SIGNED_IN] event for a session of [sessionUser]. *)
Definition signed_in_event (sessionUser : User.t) : Task unit :=
  onAuthStateChange "SIGNED_IN" (Some {| session_user := Some sessionUser |}).

Definition succeeded : Result := {| success := true; result_error := None |}.

(** The invocations of one listener, in order. *)
Definition received (listener : Listener) (m : SupabaseAuth) : list AuthState :=
  (filter (fun e => e.1 = listener) (notified m)).*2.

(** A relation that holds across every synchronous segment of a suspended
    body, whatever the requests settle to and whatever the manager is when
    the body is resumed. *)
Inductive Segments {R} (P : SupabaseAuth -> SupabaseAuth -> Prop) : Susp R -> Prop :=
| Segments_Done r : Segments P (Done r)
| Segments_Wait c k :
    (forall settled m, P m (k settled m).1) ->
    (forall settled m, Segments P (k settled m).2) ->
    Segments P (Wait c k).

Definition TaskSegments {R} (P : SupabaseAuth -> SupabaseAuth -> Prop) (t : Task R) : Prop :=
  forall m, P m (t m).1 /\ Segments P (t m).2.

(** A segment neither registers [listener] nor invokes it while it is not
    registered. *)
Definition stays_out (listener : Listener) (m m' : SupabaseAuth) : Prop :=
  (listener ∉ listeners m) ->
  (listener ∉ listeners m') /\ received listener m' = received listener m.

(** One pass of [forEach] over the listener array with state [s], and a
    number of passes one after the other. *)
Definition round (ls : list Listener) (s : AuthState) : list (Listener * AuthState) :=
  map (fun listener => (listener, s)) ls.

Definition rounds (ls : list Listener) (states : list AuthState)
  : list (Listener * AuthState) :=
  concat (map (round ls) states).

(** A segment that leaves the listener array alone and whose listener
    invocations are whole passes over that array. *)
Definition broadcasts (m m' : SupabaseAuth) : Prop :=
  listeners m' = listeners m /\
  exists states, notified m' = (notified m ++ rounds (listeners m) states)%list.

(** The listener array as the history of [subscribe] calls and closure
    calls dictates it: registration order, without the removed ones. *)
Definition registered (ls : list Listener) (t : Turn) : list Listener :=
  match t with
  | Invoke (Subscribe listener) => ls ++ [listener]
  | Invoke (Unsubscribe listener) => filter (fun l => l ≠ listener) ls
  | _ => ls
  end.

(** The two operations that write the listener array. *)
Definition listener_op (op : Op) : bool :=
  match op with
  | Subscribe _ | Unsubscribe _ => true
  | _ => false
  end.

(** ** Sample inputs *)

Definition ann : User.t :=
  {| User.id := "u1"; User.email := Some "a@x.com"; User.user_metadata := None |}.

Definition ann_profile : Profile.t :=
  {| Profile.id := "u1"; Profile.email := "a@x.com"; Profile.full_name := Some "Ann";
     Profile.company := None; Profile.position := None; Profile.phone := None;
     Profile.role := role_user; Profile.department := Some "Sales";
     Profile.avatar_url := None |}.

Definition ann_auth : AuthUser.t :=
  {| AuthUser.id := "u1"; AuthUser.email := "a@x.com"; AuthUser.name := "Ann";
     AuthUser.company := ""; AuthUser.position := ""; AuthUser.phone := "";
     AuthUser.role := role_user; AuthUser.department := Some "Sales";
     AuthUser.avatar_url := None |}.

Definition ann_data : UserData.t :=
  {| UserData.email := "a@x.com"; UserData.password := "secret"; UserData.name := "Ann";
     UserData.company := "Acme"; UserData.position := "Clerk"; UserData.phone := "555";
     UserData.department := "Sales" |}.

(** Every request succeeds; nobody is signed in at start-up; the profile
    table has Ann's row. *)
Definition online : Answers :=
  {| on_getSession := Fulfilled None;
     on_signInWithPassword := Fulfilled {| data := Some ann; error := None |};
     on_signUp := Fulfilled {| data := Some ann; error := None |};
     on_signOut := Fulfilled {| data := tt; error := None |};
     on_resetPasswordForEmail := Fulfilled {| data := tt; error := None |};
     on_select := Fulfilled {| data := Some ann_profile; error := None |};
     on_insert := Fulfilled {| data := tt; error := None |};
     on_update := Fulfilled {| data := Some ann_profile; error := None |} |}.

Definition not_found : ApiError :=
  {| code := "PGRST116"; message := "JSON object requested, multiple (or no) rows returned" |}.

Definition denied : ApiError :=
  {| code := "42501"; message := "permission denied for table profiles" |}.

(** As [online], but the profile table has no row for the user. *)
Definition no_profile : Answers :=
  {| on_getSession := Fulfilled None;
     on_signInWithPassword := Fulfilled {| data := Some ann; error := None |};
     on_signUp := Fulfilled {| data := Some ann; error := None |};
     on_signOut := Fulfilled {| data := tt; error := None |};
     on_resetPasswordForEmail := Fulfilled {| data := tt; error := None |};
     on_select := Fulfilled {| data := None; error := Some not_found |};
     on_insert := Fulfilled {| data := tt; error := None |};
     on_update := Fulfilled {| data := None; error := Some not_found |} |}.

(** The provider works; every query on the profile table is refused. *)
Definition table_refused : Answers :=
  {| on_getSession := Fulfilled None;
     on_signInWithPassword := Fulfilled {| data := Some ann; error := None |};
     on_signUp := Fulfilled {| data := Some ann; error := None |};
     on_signOut := Fulfilled {| data := tt; error := None |};
     on_resetPasswordForEmail := Fulfilled {| data := tt; error := None |};
     on_select := Fulfilled {| data := None; error := Some denied |};
     on_insert := Fulfilled {| data := tt; error := Some denied |};
     on_update := Fulfilled {| data := None; error := Some denied |} |}.

(** As [online], but the sign-out request fails. *)
Definition signOut_fails : Answers :=
  {| on_getSession := Fulfilled None;
     on_signInWithPassword := Fulfilled {| data := Some ann; error := None |};
     on_signUp := Fulfilled {| data := Some ann; error := None |};
     on_signOut := Fulfilled {| data := tt; error := Some denied |};
     on_resetPasswordForEmail := Fulfilled {| data := tt; error := None |};
     on_select := Fulfilled {| data := Some ann_profile; error := None |};
     on_insert := Fulfilled {| data := tt; error := None |};
     on_update := Fulfilled {| data := Some ann_profile; error := None |} |}.

Definition rename_to_Bob : Partial.t :=
  Partial.mk None None (Some "Bob") None None None None None None.

(** An update that tries to blank the name and the department. *)
Definition blank_out : Partial.t :=
  Partial.mk None None (Some "") None None None None (Some None) None.

Definition noon : string := "2024-01-01T12:00:00.000Z".

(** Start-up finds no session; Ann logs in; then [updateProfile] and
    [logout] are both in flight, and the sign-out settles first. *)
Definition update_overtaken_by_logout : list Turn :=
  [ Settle 0 (env_of online);
    Invoke (Login "a@x.com" "secret");
    Settle 0 (env_of online);
    Settle 0 (env_of online);
    Invoke (UpdateProfile rename_to_Bob noon);
    Invoke Logout;
    Settle 1 (env_of online);
    Settle 0 (env_of online) ].

(** Start-up, two subscriptions, a login that notifies both. *)
Definition two_subscribers : list Turn :=
  [ Settle 0 (env_of online);
    Invoke (Subscribe 7);
    Invoke (Subscribe 8);
    Invoke (Login "a@x.com" "secret");
    Settle 0 (env_of online);
    Settle 0 (env_of online) ].

(** What happens after listener 7 is removed: a profile update, a logout
    and a second login, overlapping. *)
Definition busy_afterwards : list Turn :=
  [ Invoke (UpdateProfile rename_to_Bob noon);
    Invoke Logout;
    Settle 0 (env_of online);
    Invoke (Login "a@x.com" "secret");
    Settle 0 (env_of online);
    Settle 0 (env_of online);
    Settle 0 (env_of online) ].

(** ** Further predicates *)

(** What the specification says is persisted by [updateProfile]: each of
    the four fields is the one of the updates when the updates have the
    field, and the current user's otherwise. *)
Definition merged_over (updates : Partial.t) (currentUser : AuthUser.t) (now : string)
  : ProfileUpdate.t :=
  {| ProfileUpdate.full_name := default (AuthUser.name currentUser) (Partial.name updates);
     ProfileUpdate.role := default (AuthUser.role currentUser) (Partial.role updates);
     ProfileUpdate.department :=
       default (AuthUser.department currentUser) (Partial.department updates);
     ProfileUpdate.avatar_url :=
       default (AuthUser.avatar_url currentUser) (Partial.avatar_url updates);
     ProfileUpdate.updated_at := now |}.

(** What can be said of the state whatever the interleaving: onboarding
    complete only when authenticated, authenticated only with a user. *)
Definition plausible (s : AuthState) : Prop :=
  (isOnboardingComplete s = true -> isAuthenticated s = true) /\
  (isAuthenticated s = true -> is_Some (user s)).

Definition keeps_plausible (m m' : SupabaseAuth) : Prop :=
  plausible (authState m) -> plausible (authState m').

(** A segment that leaves the listener array alone, invokes listeners only
    in whole passes over it, and leaves the [AuthState] that its last pass
    handed out; without a pass it leaves the [AuthState] as it was. *)
Definition announces (m m' : SupabaseAuth) : Prop :=
  listeners m' = listeners m /\
  exists states,
    notified m' = (notified m ++ rounds (listeners m) states)%list /\
    authState m' = default (authState m) (last states).

(** A segment that does not register the [onAuthStateChange] callback. *)
Definition keeps_unregistered (m m' : SupabaseAuth) : Prop :=
  authHandler m = false -> authHandler m' = false.

(** The request a suspended body is waiting on. *)
Definition awaited {R} (s : Susp R) : option Call :=
  match s with
  | Done _ => None
  | Wait c _ => Some c
  end.

(** ** The [useAuth] hook (src/hooks/useAuth.ts) *)

(** The five methods the hook wraps (useAuth.ts, lines 16-72). *)
Inductive HookCall : Type :=
| h_login (email password : string)
| h_register (userData : UserData.t)
| h_logout
| h_updateProfile (updates : Partial.t) (now : string)
| h_resetPassword (email origin : string).

Definition op_of (c : HookCall) : Op :=
  match c with
  | h_login email password => Login email password
  | h_register userData => Register userData
  | h_logout => Logout
  | h_updateProfile updates now => UpdateProfile updates now
  | h_resetPassword email origin => ResetPassword email origin
  end.

(** A mounted hook beside the event loop: its [loading] cell and, for
    every waiting body, whether the hook started it. *)
Record HookLoop : Type := mkHookLoop {
  hl_loop : Loop;
  hl_loading : bool;
  hl_mine : list bool
}.

(** A turn seen from the hook: one of its wrappers is called, or the loop
    takes a turn of its own (another caller, a provider event, a request
    that settles). *)
Inductive HookTurn : Type :=
| Through (c : HookCall)
| Outside (t : Turn).

Definition erase (t : HookTurn) : Turn :=
  match t with
  | Through c => Invoke (op_of c)
  | Outside t => t
  end.

Definition finished {R} (s : Susp R) : bool :=
  match s with
  | Done _ => true
  | Wait _ _ => false
  end.

(** Every wrapper is [setLoading(true); try { return await method(...) }
    finally { setLoading(false) }]: [loading] is true from the call until
    the method's body has returned. *)
Definition hook_turn (h : HookLoop) (t : HookTurn) : HookLoop :=
  match t with
  | Through c =>
      let s := (task_of (op_of c) (manager (hl_loop h))).2 in
      {| hl_loop := turn (hl_loop h) (Invoke (op_of c));
         hl_loading := negb (finished s);
         hl_mine := hl_mine h ++ (if finished s then [] else [true]) |}
  | Outside (Invoke op) =>
      let s := (task_of op (manager (hl_loop h))).2 in
      {| hl_loop := turn (hl_loop h) (Invoke op);
         hl_loading := hl_loading h;
         hl_mine := hl_mine h ++ (if finished s then [] else [false]) |}
  | Outside (Settle i env) =>
      match pending (hl_loop h) !! i with
      | Some (Wait c k) =>
          let s := (k (env c) (manager (hl_loop h))).2 in
          let mine := default false (hl_mine h !! i) in
          {| hl_loop := turn (hl_loop h) (Settle i env);
             hl_loading := if finished s && mine then false else hl_loading h;
             hl_mine := delete i (hl_mine h) ++ (if finished s then [] else [mine]) |}
      | _ => h
      end
  end.

(** How many of the hook's own calls are waiting. *)
Definition own_calls (h : HookLoop) : nat :=
  length (filter (fun b : bool => b = true) (hl_mine h)).

(** The hook's bookkeeping matches the loop, and [loading] is true exactly
    when one call of its own is waiting. *)
Definition hook_sound (h : HookLoop) : Prop :=
  length (hl_mine h) = length (pending (hl_loop h)) /\
  (hl_loading h = true /\ own_calls h = 1 \/ hl_loading h = false /\ own_calls h = 0).

(** The hook right after mounting on a loop: nothing waiting is its own. *)
Definition hook_mounted (l : Loop) : HookLoop :=
  {| hl_loop := l; hl_loading := false;
     hl_mine := replicate (length (pending l)) false |}.

(** The hook's wrappers are never called while one of its calls is still
    waiting. *)
Fixpoint one_call_at_a_time (h : HookLoop) (turns : list HookTurn) : Prop :=
  match turns with
  | [] => True
  | t :: turns' =>
      match t with
      | Through _ => true ∉ hl_mine h
      | Outside _ => True
      end /\ one_call_at_a_time (hook_turn h t) turns'
  end.

(** ** The table services (src/lib/database.ts) *)

(** The calls on the query builder that the list functions make, and a
    query as the table with the calls in order. *)
Inductive Clause : Type :=
| q_select (columns : string)
| q_order (column : string) (ascending : bool)
| q_eq (column value : string).

Record Query : Type := mkQuery {
  q_from : string;
  q_clauses : list Clause
}.

Definition q_add (c : Clause) (q : Query) : Query :=
  {| q_from := q_from q; q_clauses := q_clauses q ++ [c] |}.

(** What every service function does with the settled query: [if (error)
    throw error; return { data, error: null }], and in the [catch] block
    [return handleSupabaseError(error)].  [handleSupabaseError] is defined
    in src/lib/supabase.ts, which is not among the sources; it is a
    parameter here, and it receives whatever was thrown. *)
Definition service_result {D E : Type} (handleSupabaseError : ApiError + Exn -> E)
    (settled : Settled (Response D)) : D + E :=
  match settled with
  | Fulfilled response =>
      match error response with
      | Some e => inr (handleSupabaseError (inl e))
      | None => inl (data response)
      end
  | Rejected exn => inr (handleSupabaseError (inr exn))
  end.

(** [expenseService.getExpenseApplications] (database.ts, lines 59-76). *)
Definition getExpenseApplications {D E : Type} (handleSupabaseError : ApiError + Exn -> E)
    (userId : option string) : Query * (Settled (Response D) -> D + E) :=
  let query :=
    {| q_from := "expense_applications";
       q_clauses := [q_select "*"; q_order "created_at" false] |} in
  (match userId with
   | Some id => if truthy id then q_add (q_eq "user_id" id) query else query
   | None => query
   end,
   service_result handleSupabaseError).

(** [businessTripService.getBusinessTripApplications] (lines 131-148). *)
Definition getBusinessTripApplications {D E : Type}
    (handleSupabaseError : ApiError + Exn -> E)
    (userId : option string) : Query * (Settled (Response D) -> D + E) :=
  let query :=
    {| q_from := "business_trip_applications";
       q_clauses := [q_select "*"; q_order "created_at" false] |} in
  (match userId with
   | Some id => if truthy id then q_add (q_eq "user_id" id) query else query
   | None => query
   end,
   service_result handleSupabaseError).

(** [notificationService.getNotifications] (lines 203-216). *)
Definition getNotifications {D E : Type} (handleSupabaseError : ApiError + Exn -> E)
    (userId : string) : Query * (Settled (Response D) -> D + E) :=
  ({| q_from := "notifications";
      q_clauses := [q_select "*"; q_eq "user_id" userId; q_order "created_at" false] |},
   service_result handleSupabaseError).

(** * Properties *)

Implicit Types (env : Env) (m : SupabaseAuth) (sessionUser : User.t).

(** ** [||] *)

Lemma truthy_spec (s : string) : truthy s = true <-> s ≠ "".
Proof.
  unfold truthy. destruct (String.eqb_spec s ""); split; intros; try congruence.
  - discriminate.
  - reflexivity.
Qed.

Lemma or_else_present (s b : string) : s ≠ "" -> or_else (Some s) b = s.
Proof. intros H. apply truthy_spec in H. unfold or_else. by rewrite H. Qed.

Lemma or_else_blank (b : string) : or_else (Some "") b = b.
Proof. reflexivity. Qed.

Lemma or_else_absent (b : string) : or_else None b = b.
Proof. reflexivity. Qed.

Lemma or_nullable_present (s : string) (b : option string) :
  s ≠ "" -> or_nullable (Some s) b = Some s.
Proof. intros H. apply truthy_spec in H. unfold or_nullable. by rewrite H. Qed.

Lemma fatal_false (error : option ApiError) :
  fatal error = false <-> error = None \/ exists e, error = Some e /\ code e = "PGRST116".
Proof.
  unfold fatal. destruct error as [e|].
  - destruct (String.eqb_spec (code e) "PGRST116") as [Heq|Hne]; simpl; split.
    + intros _. right. by exists e.
    + done.
    + done.
    + intros [?|(e' & [= <-] & ?)]; done.
  - split; [by left | done].
Qed.

Lemma fatal_true (e : ApiError) : code e ≠ "PGRST116" -> fatal (Some e) = true.
Proof.
  intros Hne. unfold fatal. destruct (String.eqb_spec (code e) "PGRST116"); done.
Qed.

(** ** The state invariant *)

Lemma consistent_empty : consistent emptyAuthState.
Proof. reflexivity. Qed.

Lemma consistent_of_profile profile user : consistent (state_of_profile profile user).
Proof. reflexivity. Qed.

Lemma consistent_of_session user : consistent (state_of_session user).
Proof. reflexivity. Qed.

(** ** Reasoning segment by segment *)

Lemma Segments_Wait_inv {R} P c k :
  @Segments R P (Wait c k) ->
  (forall settled m, P m (k settled m).1) /\ (forall settled m, Segments P (k settled m).2).
Proof.
  intros H.
  refine (match H in Segments _ s
                return match s with
                       | Done _ => True
                       | Wait c' k' =>
                           (forall settled m, P m (k' settled m).1) /\
                           (forall settled m, Segments P (k' settled m).2)
                       end
          with
          | Segments_Done _ _ => I
          | Segments_Wait _ _ _ H1 H2 => conj H1 H2
          end).
Qed.

Section SegmentFacts.
Variable P : SupabaseAuth -> SupabaseAuth -> Prop.
Hypothesis P_refl : forall m, P m m.
Hypothesis P_trans : forall m1 m2 m3, P m1 m2 -> P m2 m3 -> P m1 m3.

Lemma TaskSegments_ret {R} (r : R) : TaskSegments P (ret r).
Proof. intros m. split; [apply P_refl | constructor]. Qed.

Lemma TaskSegments_sync f : (forall m, P m (f m)) -> TaskSegments P (sync f).
Proof. intros Hf m. split; [apply Hf | constructor]. Qed.

Lemma TaskSegments_read : TaskSegments P read_authState.
Proof. intros m. split; [apply P_refl | constructor]. Qed.

Lemma TaskSegments_await c : TaskSegments P (await c).
Proof.
  intros m. split; [apply P_refl |].
  constructor; intros settled m'; [apply P_refl | constructor].
Qed.

Lemma Segments_bind_susp {A B} (s : Susp A) (f : A -> Task B) :
  Segments P s -> (forall a, TaskSegments P (f a)) ->
  forall m0 m, P m0 m ->
    P m0 (bind_susp s f m).1 /\ Segments P (bind_susp s f m).2.
Proof.
  intros Hs Hf. induction Hs as [a | c k Hk1 Hk2 IH]; intros m0 m Hm; simpl.
  - destruct (Hf a m) as [H1 H2]. split; [by eapply P_trans | done].
  - split; [done |]. constructor; intros settled m'.
    + specialize (IH settled m' m' (k settled m').1 (Hk1 settled m')).
      destruct (k settled m') as [m'' s']. apply IH.
    + specialize (IH settled m' m' (k settled m').1 (Hk1 settled m')).
      destruct (k settled m') as [m'' s']. apply IH.
Qed.

Lemma TaskSegments_bind {A B} (t : Task A) (f : A -> Task B) :
  TaskSegments P t -> (forall a, TaskSegments P (f a)) -> TaskSegments P (bind t f).
Proof.
  intros Ht Hf m. unfold bind. destruct (Ht m) as [H1 H2].
  destruct (t m) as [m' s]. by apply Segments_bind_susp.
Qed.

Lemma exec_Segments {R} (s : Susp R) env :
  Segments P s -> forall m0 m sent, P m0 m -> P m0 (state_after (exec s env m sent)).
Proof.
  intros Hs. induction Hs as [r | c k Hk1 Hk2 IH]; intros m0 m sent Hm; simpl.
  - done.
  - specialize (IH (env c) m m0 (k (env c) m).1 (sent ++ [c])%list).
    specialize (Hk1 (env c) m).
    destruct (k (env c) m) as [m' s']. apply IH. by eapply P_trans.
Qed.

Lemma run_Segments {R} (t : Task R) env m :
  TaskSegments P t -> P m (state_after (run t env m)).
Proof.
  intros Ht. unfold run. destruct (Ht m) as [H1 H2].
  destruct (t m) as [m' s]. by apply exec_Segments.
Qed.

(** The methods, given that the elementary statements respect [P]. *)
Hypothesis P_console : forall label m, P m (console_error label m).
Hypothesis P_notify : forall m, P m (notifyListeners m).
Hypothesis P_replace : forall s m, consistent s -> P m (set_authState s m).
Hypothesis P_handler : forall m, P m (register_authHandler m).

Lemma P_clearAuthState m : P m (clearAuthState m).
Proof.
  unfold clearAuthState. eapply P_trans; [| apply P_notify].
  apply P_replace, consistent_empty.
Qed.

Ltac segment_step :=
  first
    [ apply TaskSegments_ret
    | apply TaskSegments_await
    | apply TaskSegments_read
    | apply TaskSegments_sync; first [ apply P_console | apply P_notify | apply P_handler
                                     | apply P_clearAuthState ]
    | apply TaskSegments_bind; [| intros ?]
    | match goal with
      | |- TaskSegments _ (match ?x with _ => _ end) => destruct x
      end ].

Lemma TaskSegments_setUserFromSession user : TaskSegments P (setUserFromSession user).
Proof.
  unfold setUserFromSession. repeat segment_step.
  apply TaskSegments_sync. intros m. apply P_replace.
  destruct (data _); [apply consistent_of_profile | apply consistent_of_session].
Qed.

Ltac segments :=
  repeat first [ apply TaskSegments_setUserFromSession | segment_step ].

Lemma TaskSegments_onAuthStateChange event session :
  TaskSegments P (onAuthStateChange event session).
Proof.
  unfold onAuthStateChange.
  destruct (String.eqb event "SIGNED_IN"), (session ≫= session_user);
    segments.
Qed.

Lemma TaskSegments_initializeAuth : TaskSegments P initializeAuth.
Proof.
  unfold initializeAuth. segments.
Qed.

Lemma TaskSegments_login email password : TaskSegments P (login email password).
Proof. unfold login. segments. Qed.

Lemma TaskSegments_register userData : TaskSegments P (register userData).
Proof. unfold register. segments. Qed.

Lemma TaskSegments_logout : TaskSegments P logout.
Proof. unfold logout. segments. Qed.

Lemma TaskSegments_resetPassword email origin : TaskSegments P (resetPassword email origin).
Proof. unfold resetPassword. segments. Qed.

Lemma TaskSegments_forget {R} (t : Task R) : TaskSegments P t -> TaskSegments P (forget t).
Proof. intros Ht. unfold forget. apply TaskSegments_bind; [done | intros ?; segments]. Qed.

(** [updateProfile] also assigns [this.authState.user]. *)
Hypothesis P_user : forall u m, P m (set_authState_user u m).

Lemma TaskSegments_updateProfile updates now : TaskSegments P (updateProfile updates now).
Proof.
  unfold updateProfile. segments. apply TaskSegments_sync. intros m. apply P_user.
Qed.

Lemma TaskSegments_task_of op : listener_op op = false -> TaskSegments P (task_of op).
Proof.
  destruct op; simpl; try done; intros _.
  - apply TaskSegments_forget, TaskSegments_login.
  - apply TaskSegments_forget, TaskSegments_register.
  - apply TaskSegments_forget, TaskSegments_logout.
  - apply TaskSegments_forget, TaskSegments_updateProfile.
  - apply TaskSegments_forget, TaskSegments_resetPassword.
  - intros m. destruct (authHandler m).
    + apply TaskSegments_onAuthStateChange.
    + by apply TaskSegments_ret.
Qed.

(** Whatever the operation, what it leaves waiting respects [P]. *)
Lemma task_of_waiting op m : Segments P (task_of op m).2.
Proof.
  destruct (listener_op op) eqn:Hop.
  - destruct op; try done; constructor.
  - by apply TaskSegments_task_of.
Qed.

Lemma park_Segments s : Segments P s -> Forall (Segments P) (park s).
Proof.
  intros Hs. destruct s; simpl.
  - apply Forall_nil_2.
  - apply Forall_cons_2; [done | apply Forall_nil_2].
Qed.

Lemma turn_pending l t :
  Forall (Segments P) (pending l) -> Forall (Segments P) (pending (turn l t)).
Proof.
  intros Hl. destruct t as [op | i env]; simpl.
  - pose proof (task_of_waiting op (manager l)) as Hw.
    destruct (task_of op (manager l)) as [m' s]. simpl.
    apply Forall_app. split; [done | by apply park_Segments].
  - destruct (pending l !! i) as [[r | c k] |] eqn:Hi; try done.
    pose proof (Forall_lookup_1 _ _ _ _ Hl Hi) as Hk.
    apply Segments_Wait_inv in Hk as [_ Hk2]. specialize (Hk2 (env c) (manager l)).
    destruct (k (env c) (manager l)) as [m' s]. simpl.
    apply Forall_app. split; [by apply Forall_delete | by apply park_Segments].
Qed.

Lemma turns_pending turns l :
  Forall (Segments P) (pending l) -> Forall (Segments P) (pending (foldl turn l turns)).
Proof.
  revert l. induction turns as [| t turns IH]; intros l Hl; simpl; [done |].
  by apply IH, turn_pending.
Qed.

Lemma new_SupabaseAuth_pending : Forall (Segments P) (pending new_SupabaseAuth).
Proof.
  unfold new_SupabaseAuth. destruct (TaskSegments_initializeAuth fresh) as [_ H].
  destruct (initializeAuth fresh) as [m s]. by apply park_Segments.
Qed.

Lemma schedule_pending turns : Forall (Segments P) (pending (schedule turns)).
Proof. apply turns_pending, new_SupabaseAuth_pending. Qed.

(** A turn respects [P] when it resumes a waiting body, and when it
    starts an operation whose first segment does. *)
Lemma turn_manager l t :
  Forall (Segments P) (pending l) ->
  (forall op, t = Invoke op -> P (manager l) (task_of op (manager l)).1) ->
  P (manager l) (manager (turn l t)).
Proof.
  intros Hl Ht. destruct t as [op | i env]; simpl.
  - specialize (Ht op eq_refl). by destruct (task_of op (manager l)).
  - destruct (pending l !! i) as [[r | c k] |] eqn:Hi; try done.
    pose proof (Forall_lookup_1 _ _ _ _ Hl Hi) as Hk.
    apply Segments_Wait_inv in Hk as [Hk1 _]. specialize (Hk1 (env c) (manager l)).
    by destruct (k (env c) (manager l)).
Qed.

End SegmentFacts.

(** ** The state invariant, one operation at a time *)

Lemma updateProfile_keeps_consistent updates now env m :
  keeps_consistent m (state_after (run (forget (updateProfile updates now)) env m)).
Proof.
  unfold keeps_consistent, consistent, run, forget, updateProfile, bind, read_authState.
  simpl. destruct (user (authState m)) as [currentUser |] eqn:Hu; simpl.
  - destruct (env _) as [[row [e |]] | exn]; simpl; rewrite ?Hu; done.
  - by rewrite Hu.
Qed.

Lemma keeps_consistent_refl m : keeps_consistent m m.
Proof. by intros ?. Qed.

Lemma keeps_consistent_trans m1 m2 m3 :
  keeps_consistent m1 m2 -> keeps_consistent m2 m3 -> keeps_consistent m1 m3.
Proof. intros H1 H2 H. by apply H2, H1. Qed.

Lemma keeps_consistent_replace s m : consistent s -> keeps_consistent m (set_authState s m).
Proof. by intros Hs _. Qed.

Lemma keeps_consistent_same m m' : authState m' = authState m -> keeps_consistent m m'.
Proof. intros Heq H. by rewrite Heq. Qed.

Lemma run_op_keeps_consistent m step : keeps_consistent m (run_op m step).
Proof.
  destruct step as [op env].
  change (keeps_consistent m (state_after (run (task_of op) env m))).
  assert (Hrefl := keeps_consistent_refl).
  assert (Htrans := keeps_consistent_trans).
  assert (Hreplace := keeps_consistent_replace).
  assert (Hconsole : forall label m0, keeps_consistent m0 (console_error label m0))
    by (intros; by apply keeps_consistent_same).
  assert (Hnotify : forall m0, keeps_consistent m0 (notifyListeners m0))
    by (intros; by apply keeps_consistent_same).
  assert (Hhandler : forall m0, keeps_consistent m0 (register_authHandler m0))
    by (intros; by apply keeps_consistent_same).
  destruct op; try (by apply keeps_consistent_same).
  - apply run_Segments, TaskSegments_forget, TaskSegments_login; done.
  - apply run_Segments, TaskSegments_forget, TaskSegments_register; done.
  - apply run_Segments, TaskSegments_forget, TaskSegments_logout; done.
  - apply updateProfile_keeps_consistent.
  - apply run_Segments, TaskSegments_forget, TaskSegments_resetPassword; done.
  - apply run_Segments; [done.. |]. intros m0. simpl. destruct (authHandler m0).
    + by apply (TaskSegments_onAuthStateChange keeps_consistent).
    + by apply (TaskSegments_ret keeps_consistent).
Qed.

Lemma constructed_consistent env : consistent (authState (constructed env)).
Proof.
  unfold constructed.
  apply (run_Segments keeps_consistent keeps_consistent_trans initializeAuth env fresh);
    [| apply consistent_empty].
  apply TaskSegments_initializeAuth;
    first [ apply keeps_consistent_refl | apply keeps_consistent_trans
          | apply keeps_consistent_replace | intros; by apply keeps_consistent_same ].
Qed.

(** With one operation at a time the invariant holds in every state the
    manager reaches, whatever the provider and the table answer. *)
Lemma one_at_a_time_consistent env steps :
  consistent (authState (one_at_a_time env steps)).
Proof.
  unfold one_at_a_time. generalize (constructed_consistent env).
  generalize (constructed env) as m. induction steps as [| step steps IH]; intros m Hm.
  - done.
  - simpl. apply IH. by apply run_op_keeps_consistent.
Qed.


(** ** Resolution from a session *)

Lemma or_else_cases (a : option string) (b : string) :
  or_else a b = match a with
                | Some s => if decide (s = "") then b else s
                | None => b
                end.
Proof.
  destruct a as [s |]; simpl; [| done]. unfold truthy.
  destruct (String.eqb_spec s ""); by case_decide.
Qed.

Lemma or_else_default (a : option string) : or_else a "" = default "" a.
Proof.
  rewrite or_else_cases. destruct a as [s |]; simpl; [| done]. by case_decide.
Qed.

Lemma run_setUserFromSession env m sessionUser response :
  env (profiles_select_single (User.id sessionUser)) = Fulfilled response ->
  fatal (error response) = false ->
  run (setUserFromSession sessionUser) env m =
    (notifyListeners
       (set_authState
          match data response with
          | Some profile => state_of_profile profile sessionUser
          | None => state_of_session sessionUser
          end m),
     [profiles_select_single (User.id sessionUser)], tt).
Proof.
  intros Henv Hfatal. unfold run, setUserFromSession, bind, await. simpl.
  rewrite Henv, Hfatal. reflexivity.
Qed.

Lemma run_signed_in_event env m sessionUser :
  run (signed_in_event sessionUser) env m = run (setUserFromSession sessionUser) env m.
Proof. reflexivity. Qed.

Lemma run_login env m email password sessionUser :
  env (auth_signInWithPassword email password)
    = Fulfilled {| data := Some sessionUser; error := None |} ->
  returned (run (login email password) env m) = succeeded /\
  state_after (run (login email password) env m)
    = state_after (run (setUserFromSession sessionUser) env m).
Proof.
  intros Henv. unfold run, login, setUserFromSession, bind, await. simpl.
  rewrite Henv. simpl.
  destruct (env (profiles_select_single _)) as [response | exn]; simpl; [| done].
  destruct (fatal (error response)); done.
Qed.

Lemma state_of_profile_from_profile profile sessionUser :
  Profile.id profile = User.id sessionUser ->
  from_profile profile sessionUser (state_of_profile profile sessionUser).
Proof.
  intros Hid. split; [done |]. eexists. split; [done |]. simpl. split; [done |].
  rewrite or_else_cases, or_else_default. done.
Qed.

Lemma state_of_session_from_session sessionUser :
  from_session sessionUser (state_of_session sessionUser).
Proof.
  split; [done |]. eexists. split; [done |]. simpl.
  rewrite or_else_cases, !or_else_default. done.
Qed.

Lemma run_register env m userData sessionUser inserted :
  env (auth_signUp (UserData.email userData) (UserData.password userData)
         (signUp_data userData))
    = Fulfilled {| data := Some sessionUser; error := None |} ->
  env (profiles_insert (new_profile (User.id sessionUser) userData)) = Fulfilled inserted ->
  returned (run (register userData) env m) = succeeded /\
  state_after (run (register userData) env m)
    = state_after
        (run (setUserFromSession sessionUser) env
           match error inserted with
           | Some _ => console_error "Profile creation error:" m
           | None => m
           end).
Proof.
  intros Hup Hins. unfold run, register, setUserFromSession, bind, await. simpl.
  rewrite Hup. simpl. rewrite Hins. simpl.
  destruct (error inserted); simpl;
    (destruct (env (profiles_select_single _)) as [response | exn]; simpl; [| done];
     destruct (fatal (error response)); done).
Qed.

(** ** Sign-in, failed lookups and logout *)

(** C1, at the schedule where the code departs from it.  Ann is logged in;
    [updateProfile] and [logout] are both waiting on their requests; the
    sign-out settles first and clears the state; when the update settles,
    [updateProfile] stores the merged user it computed from the user it
    read before its [await], and writes nothing else: the state now has a
    user while [isAuthenticated] is false. *)
Theorem C1_updateProfile_overtaken_by_logout :
  let before_update_settles :=
    authState (manager (schedule (take 7 update_overtaken_by_logout))) in
  let final := authState (manager (schedule update_overtaken_by_logout)) in
  before_update_settles = emptyAuthState /\
  final =
    {| user := Some
         {| AuthUser.id := "u1"; AuthUser.email := "a@x.com"; AuthUser.name := "Bob";
            AuthUser.company := ""; AuthUser.position := ""; AuthUser.phone := "";
            AuthUser.role := role_user; AuthUser.department := Some "Sales";
            AuthUser.avatar_url := None |};
       isAuthenticated := false;
       isOnboardingComplete := false |} /\
  ~ consistent final.
Proof. vm_compute. repeat split. discriminate. Qed.

(** C2: when the profile table answers the lookup for the session user's
    id with a row keyed by that id, the state after a sign-in event, after
    a login the provider accepts, and after a registration the provider
    accepts has onboarding complete, the session user's id, and the row's
    name, or the session's e-mail address when the row's name is empty. *)
Theorem C2_resolve_with_profile env m sessionUser profile :
  Profile.id profile = User.id sessionUser ->
  env (profiles_select_single (User.id sessionUser))
    = Fulfilled {| data := Some profile; error := None |} ->
  from_profile profile sessionUser
    (authState (state_after (run (signed_in_event sessionUser) env m))) /\
  (forall email password,
     env (auth_signInWithPassword email password)
       = Fulfilled {| data := Some sessionUser; error := None |} ->
     returned (run (login email password) env m) = succeeded /\
     from_profile profile sessionUser
       (authState (state_after (run (login email password) env m)))) /\
  (forall userData inserted,
     env (auth_signUp (UserData.email userData) (UserData.password userData)
            (signUp_data userData))
       = Fulfilled {| data := Some sessionUser; error := None |} ->
     env (profiles_insert (new_profile (User.id sessionUser) userData))
       = Fulfilled inserted ->
     returned (run (register userData) env m) = succeeded /\
     from_profile profile sessionUser
       (authState (state_after (run (register userData) env m)))).
Proof.
  intros Hid Hrow.
  assert (Hresolve : forall m0,
             from_profile profile sessionUser
               (authState (state_after (run (setUserFromSession sessionUser) env m0)))).
  { intros m0. rewrite (run_setUserFromSession _ _ _ _ Hrow eq_refl).
    by apply state_of_profile_from_profile. }
  split; [| split].
  - rewrite run_signed_in_event. apply Hresolve.
  - intros email password Hin.
    destruct (run_login env m email password sessionUser Hin) as [-> ->].
    split; [done | apply Hresolve].
  - intros userData inserted Hup Hins.
    destruct (run_register env m userData sessionUser inserted Hup Hins) as [-> ->].
    split; [done | apply Hresolve].
Qed.

Lemma C2_resolve_with_profile_witness :
  from_profile ann_profile ann
    (authState (state_after (run (signed_in_event ann) (env_of online) fresh))) /\
  returned (run (login "a@x.com" "secret") (env_of online) fresh) = succeeded /\
  user (authState (state_after (run (login "a@x.com" "secret") (env_of online) fresh)))
    = Some ann_auth.
Proof.
  destruct (C2_resolve_with_profile (env_of online) fresh ann ann_profile) as (H1 & H2 & _).
  - reflexivity.
  - reflexivity.
  - split; [exact H1 |]. split.
    + apply (H2 "a@x.com" "secret"). reflexivity.
    + vm_compute. reflexivity.
Defined.

(** C3, as stated, fails: with no profile row and no [full_name] in the
    metadata the name is the session's e-mail address, not the empty
    string. *)
Lemma C3_name_falls_back_to_email :
  env_of no_profile (profiles_select_single (User.id ann))
    = Fulfilled {| data := None; error := Some not_found |} /\
  metadata_get ann "full_name" = None /\
  (AuthUser.name <$>
     user (authState (state_after (run (signed_in_event ann) (env_of no_profile) fresh))))
    = Some "a@x.com" /\
  ~ from_metadata_only ann
      (authState (state_after (run (signed_in_event ann) (env_of no_profile) fresh))).
Proof.
  repeat split.
  intros (_ & u & Hu & Hname & _). vm_compute in Hu, Hname.
  injection Hu as <-. discriminate Hname.
Qed.

(** C3, amended: when the lookup answers with the not-found code and no
    row, the state after a sign-in event has onboarding incomplete and a
    user built from the session: company, position and phone from the
    metadata map, empty when missing; the name from the metadata map,
    falling back to the session's e-mail address when missing or empty;
    role [user]; no department; no avatar. *)
Theorem C3_resolve_without_profile env m sessionUser e :
  env (profiles_select_single (User.id sessionUser))
    = Fulfilled {| data := None; error := Some e |} ->
  code e = "PGRST116" ->
  from_session sessionUser
    (authState (state_after (run (signed_in_event sessionUser) env m))).
Proof.
  intros Hrow Hcode. rewrite run_signed_in_event.
  rewrite (run_setUserFromSession _ _ _ _ Hrow).
  - apply state_of_session_from_session.
  - apply fatal_false. right. by exists e.
Qed.

Lemma C3_resolve_without_profile_witness :
  from_session ann
    (authState (state_after (run (signed_in_event ann) (env_of no_profile) fresh))).
Proof.
  apply (C3_resolve_without_profile (env_of no_profile) fresh ann not_found).
  - reflexivity.
  - reflexivity.
Defined.

(** C4: when the lookup of [setUserFromSession] answers with an error
    whose code is not the not-found code, the [AuthState] and the listener
    array are what they were, no listener is invoked, and the error is
    logged. *)
Theorem C4_fatal_lookup_aborts env m sessionUser response e :
  env (profiles_select_single (User.id sessionUser)) = Fulfilled response ->
  error response = Some e ->
  code e ≠ "PGRST116" ->
  let m' := state_after (run (setUserFromSession sessionUser) env m) in
  authState m' = authState m /\
  listeners m' = listeners m /\
  notified m' = notified m /\
  console m' = (console m ++ ["Profile fetch error:"])%list.
Proof.
  intros Henv He Hcode. unfold run, setUserFromSession, bind, await. simpl.
  rewrite Henv, He, (fatal_true e Hcode). done.
Qed.

Lemma C4_fatal_lookup_aborts_witness :
  let m := set_listeners [7; 8] (set_authState (state_of_profile ann_profile ann) fresh) in
  let m' := state_after (run (setUserFromSession ann) (env_of table_refused) m) in
  authState m' = authState m /\
  listeners m' = listeners m /\
  notified m' = notified m /\
  console m' = (console m ++ ["Profile fetch error:"])%list.
Proof.
  apply (C4_fatal_lookup_aborts (env_of table_refused) _ ann
           {| data := None; error := Some denied |} denied).
  - reflexivity.
  - reflexivity.
  - vm_compute. discriminate.
Defined.

(** C5: from any state, [logout] whose sign-out request succeeds returns
    success, leaves the empty [AuthState] and invokes every listener with
    it; [logout] whose sign-out request answers with an error, or is
    rejected, returns failure and leaves the manager as it was. *)
Theorem C5_logout env m :
  (forall d, env auth_signOut = Fulfilled {| data := d; error := None |} ->
     returned (run logout env m) = succeeded /\
     authState (state_after (run logout env m))
       = {| user := None; isAuthenticated := false; isOnboardingComplete := false |} /\
     listeners (state_after (run logout env m)) = listeners m /\
     notified (state_after (run logout env m))
       = (notified m ++ map (fun l => (l, emptyAuthState)) (listeners m))%list) /\
  (forall d e, env auth_signOut = Fulfilled {| data := d; error := Some e |} ->
     returned (run logout env m)
       = {| success := false; result_error := Some (message e) |} /\
     state_after (run logout env m) = m) /\
  (forall exn, env auth_signOut = Rejected exn ->
     success (returned (run logout env m)) = false /\
     state_after (run logout env m) = m).
Proof.
  unfold run, logout, bind, await. simpl.
  repeat split; intros; rewrite H; done.
Qed.

Lemma C5_logout_witness :
  let m := set_listeners [7; 8] (set_authState (state_of_profile ann_profile ann) fresh) in
  (returned (run logout (env_of online) m) = succeeded /\
   authState (state_after (run logout (env_of online) m)) = emptyAuthState /\
   notified (state_after (run logout (env_of online) m))
     = [(7, emptyAuthState); (8, emptyAuthState)]) /\
  (success (returned (run logout (env_of signOut_fails) m)) = false /\
   state_after (run logout (env_of signOut_fails) m) = m).
Proof.
  intros m. split.
  - destruct (C5_logout (env_of online) m) as (H & _ & _).
    destruct (H tt eq_refl) as (H1 & H2 & _ & H4). repeat split; assumption.
  - destruct (C5_logout (env_of signOut_fails) m) as (_ & H & _).
    destruct (H tt denied eq_refl) as (H1 & H2). split; [by rewrite H1 | exact H2].
Defined.

(** ** [updateProfile] *)

Lemma run_updateProfile_success env m currentUser updates now row :
  user (authState m) = Some currentUser ->
  (forall values id,
     env (profiles_update_single values id) = Fulfilled {| data := row; error := None |}) ->
  run (updateProfile updates now) env m =
    (notifyListeners (set_authState_user (spread currentUser updates) m),
     [profiles_update_single (update_values updates currentUser now)
        (AuthUser.id currentUser)],
     {| p_success := true; p_data := Some (spread currentUser updates); p_error := None |}).
Proof.
  intros Hu Henv. unfold run, updateProfile, bind, read_authState, await. simpl.
  rewrite Hu. simpl. rewrite Henv. reflexivity.
Qed.

Lemma or_nullable_cases (a b : option string) :
  or_nullable a b = match a with
                    | Some s => if decide (s = "") then b else Some s
                    | None => b
                    end.
Proof.
  destruct a as [s |]; simpl; [| done]. unfold truthy.
  destruct (String.eqb_spec s ""); by case_decide.
Qed.



(** C6, as stated, fails: an update that carries an empty name and a
    [null] department succeeds, yet what is sent to the table is the
    current name and department, not the name and department of the
    updates merged over the current ones. *)
Lemma C6_present_but_empty_is_not_merged :
  let m := set_authState (state_of_profile ann_profile ann) fresh in
  let r := run (updateProfile blank_out noon) (env_of online) m in
  user (authState m) = Some ann_auth /\
  p_success (returned r) = true /\
  Partial.name blank_out = Some "" /\
  Partial.department blank_out = Some None /\
  merged_over blank_out ann_auth noon =
    {| ProfileUpdate.full_name := ""; ProfileUpdate.role := role_user;
       ProfileUpdate.department := None; ProfileUpdate.avatar_url := None;
       ProfileUpdate.updated_at := noon |} /\
  requests r =
    [profiles_update_single
       {| ProfileUpdate.full_name := "Ann"; ProfileUpdate.role := role_user;
          ProfileUpdate.department := Some "Sales"; ProfileUpdate.avatar_url := None;
          ProfileUpdate.updated_at := noon |} "u1"] /\
  requests r ≠ [profiles_update_single (merged_over blank_out ann_auth noon) "u1"].
Proof.
  cbv zeta. split; [reflexivity |]. split; [reflexivity |]. split; [reflexivity |].
  split; [reflexivity |]. split; [reflexivity |]. split; [reflexivity |].
  vm_compute. intros Heq. discriminate Heq.
Qed.

(** C6, amended: an [updateProfile] call from a state with a user, whose
    update request succeeds, sends one update keyed by the current user's
    id that carries [full_name], [role], [department], [avatar_url] and
    the timestamp; each of the four is the supplied value when the updates
    carry the field with a value that is neither empty nor [null], and the
    current value otherwise, that is when the field is absent and also
    when it is present but empty or [null]; the whole updates object is
    spread over the current user, that user is stored and returned, and
    every listener is invoked with the new state. *)
Theorem C6_updateProfile_success env m currentUser updates now row :
  user (authState m) = Some currentUser ->
  (forall values id,
     env (profiles_update_single values id) = Fulfilled {| data := row; error := None |}) ->
  let r := run (updateProfile updates now) env m in
  let merged :=
    {| AuthUser.id := default (AuthUser.id currentUser) (Partial.id updates);
       AuthUser.email := default (AuthUser.email currentUser) (Partial.email updates);
       AuthUser.name := default (AuthUser.name currentUser) (Partial.name updates);
       AuthUser.company := default (AuthUser.company currentUser) (Partial.company updates);
       AuthUser.position :=
         default (AuthUser.position currentUser) (Partial.position updates);
       AuthUser.phone := default (AuthUser.phone currentUser) (Partial.phone updates);
       AuthUser.role := default (AuthUser.role currentUser) (Partial.role updates);
       AuthUser.department :=
         default (AuthUser.department currentUser) (Partial.department updates);
       AuthUser.avatar_url :=
         default (AuthUser.avatar_url currentUser) (Partial.avatar_url updates) |} in
  (exists values,
     requests r = [profiles_update_single values (AuthUser.id currentUser)] /\
     ProfileUpdate.updated_at values = now /\
     ProfileUpdate.full_name values =
       match Partial.name updates with
       | Some n => if decide (n = "") then AuthUser.name currentUser else n
       | None => AuthUser.name currentUser
       end /\
     ProfileUpdate.role values =
       match Partial.role updates with
       | Some ro => ro
       | None => AuthUser.role currentUser
       end /\
     ProfileUpdate.department values =
       match Partial.department updates with
       | Some (Some d) => if decide (d = "") then AuthUser.department currentUser else Some d
       | Some None => AuthUser.department currentUser
       | None => AuthUser.department currentUser
       end /\
     ProfileUpdate.avatar_url values =
       match Partial.avatar_url updates with
       | Some (Some a) => if decide (a = "") then AuthUser.avatar_url currentUser else Some a
       | Some None => AuthUser.avatar_url currentUser
       | None => AuthUser.avatar_url currentUser
       end) /\
  authState (state_after r)
    = {| user := Some merged;
         isAuthenticated := isAuthenticated (authState m);
         isOnboardingComplete := isOnboardingComplete (authState m) |} /\
  listeners (state_after r) = listeners m /\
  notified (state_after r)
    = (notified m ++ map (fun l => (l, authState (state_after r))) (listeners m))%list /\
  returned r = {| p_success := true; p_data := Some merged; p_error := None |}.
Proof.
  intros Hu Henv. cbv zeta.
  rewrite (run_updateProfile_success env m currentUser updates now row Hu Henv).
  split; [| done].
  eexists. split; [reflexivity |]. simpl.
  rewrite or_else_cases, !or_nullable_cases.
  split; [done |]. split; [done |]. split; [by destruct (Partial.role updates) |].
  split.
  - by destruct (Partial.department updates) as [[d |] |].
  - by destruct (Partial.avatar_url updates) as [[a |] |].
Qed.

Lemma C6_updateProfile_success_witness :
  let m := set_listeners [7; 8] (set_authState (state_of_profile ann_profile ann) fresh) in
  let r := run (updateProfile rename_to_Bob noon) (env_of online) m in
  requests r =
    [profiles_update_single
       {| ProfileUpdate.full_name := "Bob"; ProfileUpdate.role := role_user;
          ProfileUpdate.department := Some "Sales"; ProfileUpdate.avatar_url := None;
          ProfileUpdate.updated_at := noon |} "u1"] /\
  returned r = {| p_success := true; p_data := Some (spread ann_auth rename_to_Bob);
                  p_error := None |}.
Proof.
  intros m r.
  destruct (C6_updateProfile_success (env_of online) m ann_auth rename_to_Bob noon
              (Some ann_profile)) as (_ & _ & _ & _ & Hret).
  - reflexivity.
  - intros values id. reflexivity.
  - split; [reflexivity | exact Hret].
Defined.

(** C7: [updateProfile] from a state without a user returns failure with
    the no-user message, sends nothing and leaves the manager as it was;
    [updateProfile] whose update request answers with an error, or is
    rejected, returns failure and leaves the manager as it was: the
    [AuthState] is unchanged and no listener is invoked. *)
Theorem C7_updateProfile_failures env m updates now :
  let r := run (updateProfile updates now) env m in
  (user (authState m) = None ->
     returned r = {| p_success := false; p_data := None;
                     p_error := Some "ユーザーが見つかりません" |} /\
     requests r = [] /\
     state_after r = m) /\
  (forall currentUser row e,
     user (authState m) = Some currentUser ->
     (forall values id,
        env (profiles_update_single values id)
          = Fulfilled {| data := row; error := Some e |}) ->
     returned r = {| p_success := false; p_data := None; p_error := Some (message e) |} /\
     state_after r = m) /\
  (forall currentUser exn,
     user (authState m) = Some currentUser ->
     (forall values id, env (profiles_update_single values id) = Rejected exn) ->
     p_success (returned r) = false /\
     state_after r = m).
Proof.
  unfold run, updateProfile, bind, read_authState, await. simpl.
  repeat split; intros.
  all: try (rewrite H; simpl; rewrite ?H0; done).
Qed.

Lemma C7_updateProfile_failures_witness :
  let m := set_listeners [7; 8] (set_authState (state_of_profile ann_profile ann) fresh) in
  (p_success (returned (run (updateProfile rename_to_Bob noon) (env_of online) fresh))
     = false /\
   state_after (run (updateProfile rename_to_Bob noon) (env_of online) fresh) = fresh) /\
  (p_error (returned (run (updateProfile rename_to_Bob noon) (env_of table_refused) m))
     = Some (message denied) /\
   state_after (run (updateProfile rename_to_Bob noon) (env_of table_refused) m) = m).
Proof.
  intros m. split.
  - destruct (C7_updateProfile_failures (env_of online) fresh rename_to_Bob noon)
      as (H & _ & _).
    destruct (H eq_refl) as (H1 & _ & H3). split; [by rewrite H1 | exact H3].
  - destruct (C7_updateProfile_failures (env_of table_refused) m rename_to_Bob noon)
      as (_ & H & _).
    destruct (H ann_auth None denied eq_refl (fun _ _ => eq_refl)) as (H1 & H2).
    split; [by rewrite H1 | exact H2].
Defined.



(** ** [register] *)

(** C8, as stated, fails: the sign-up succeeds, the insert is refused,
    and so is the lookup that follows; [register] returns success while
    the state is still the empty one. *)
Lemma C8_register_success_without_state :
  let r := run (register ann_data) (env_of table_refused) fresh in
  env_of table_refused
    (auth_signUp (UserData.email ann_data) (UserData.password ann_data)
       (signUp_data ann_data))
    = Fulfilled {| data := Some ann; error := None |} /\
  env_of table_refused (profiles_insert (new_profile (User.id ann) ann_data))
    = Fulfilled {| data := tt; error := Some denied |} /\
  returned r = succeeded /\
  isAuthenticated (authState (state_after r)) = false /\
  authState (state_after r) = emptyAuthState.
Proof. vm_compute. repeat split. Qed.

(** C8, amended: when the sign-up succeeds with a user and the insert
    answers with an error, [register] logs the error and returns success;
    the state has [isAuthenticated] true when the lookup that follows
    answers with a row or with the not-found code, and is the state from
    before the call when that lookup answers with another error or is
    rejected. *)
Theorem C8_register_insert_fails env m userData sessionUser d e :
  env (auth_signUp (UserData.email userData) (UserData.password userData)
         (signUp_data userData))
    = Fulfilled {| data := Some sessionUser; error := None |} ->
  env (profiles_insert (new_profile (User.id sessionUser) userData))
    = Fulfilled {| data := d; error := Some e |} ->
  let r := run (register userData) env m in
  returned r = succeeded /\
  "Profile creation error:" ∈ console (state_after r) /\
  (forall response,
     env (profiles_select_single (User.id sessionUser)) = Fulfilled response ->
     fatal (error response) = false ->
     isAuthenticated (authState (state_after r)) = true) /\
  (forall response,
     env (profiles_select_single (User.id sessionUser)) = Fulfilled response ->
     fatal (error response) = true ->
     authState (state_after r) = authState m) /\
  (forall exn,
     env (profiles_select_single (User.id sessionUser)) = Rejected exn ->
     authState (state_after r) = authState m).
Proof.
  intros Hup Hins. cbv zeta.
  destruct (run_register env m userData sessionUser _ Hup Hins) as [-> ->].
  simpl error. cbv iota.
  split; [done |].
  unfold run, setUserFromSession, bind, await. simpl.
  repeat split.
  - destruct (env (profiles_select_single _)) as [response | exn]; simpl.
    + destruct (fatal (error response)); simpl; set_solver.
    + set_solver.
  - intros response -> Hfatal. rewrite Hfatal. simpl. by destruct (data response).
  - intros response -> Hfatal. by rewrite Hfatal.
  - by intros exn ->.
Qed.

Lemma C8_register_insert_fails_witness :
  let no_insert :=
    {| on_getSession := Fulfilled None;
       on_signInWithPassword := Fulfilled {| data := Some ann; error := None |};
       on_signUp := Fulfilled {| data := Some ann; error := None |};
       on_signOut := Fulfilled {| data := tt; error := None |};
       on_resetPasswordForEmail := Fulfilled {| data := tt; error := None |};
       on_select := Fulfilled {| data := None; error := Some not_found |};
       on_insert := Fulfilled {| data := tt; error := Some denied |};
       on_update := Fulfilled {| data := None; error := Some denied |} |} in
  returned (run (register ann_data) (env_of no_insert) fresh) = succeeded /\
  isAuthenticated (authState (state_after (run (register ann_data) (env_of no_insert) fresh)))
    = true.
Proof.
  intros no_insert.
  destruct (C8_register_insert_fails (env_of no_insert) fresh ann_data ann tt denied)
    as (H1 & _ & H3 & _).
  - reflexivity.
  - reflexivity.
  - split; [exact H1 |].
    apply (H3 {| data := None; error := Some not_found |}); reflexivity.
Defined.

(** ** Listeners *)

Lemma broadcasts_refl m : broadcasts m m.
Proof. split; [done |]. exists []. by rewrite app_nil_r. Qed.

Lemma broadcasts_trans m1 m2 m3 : broadcasts m1 m2 -> broadcasts m2 m3 -> broadcasts m1 m3.
Proof.
  intros [Hl1 [s1 Hn1]] [Hl2 [s2 Hn2]]. split; [congruence |].
  exists (s1 ++ s2)%list. unfold rounds in *.
  rewrite Hn2, Hn1, Hl1, map_app, concat_app, app_assoc. done.
Qed.

Lemma broadcasts_quiet m m' :
  listeners m' = listeners m -> notified m' = notified m -> broadcasts m m'.
Proof. intros Hl Hn. split; [done |]. exists []. by rewrite Hn, app_nil_r. Qed.

Lemma broadcasts_notifyListeners m : broadcasts m (notifyListeners m).
Proof.
  split; [done |]. exists [authState m]. unfold rounds, round. simpl.
  by rewrite app_nil_r.
Qed.

Lemma received_round listener ls s :
  listener ∉ ls -> filter (fun e => e.1 = listener) (round ls s) = [].
Proof.
  intros Hnot. induction ls as [| l ls IH]; [done |].
  apply not_elem_of_cons in Hnot as [Hne Hnot]. unfold round. simpl.
  rewrite filter_cons_False; [by apply IH | simpl; congruence].
Qed.

Lemma received_rounds listener ls states :
  listener ∉ ls -> filter (fun e => e.1 = listener) (rounds ls states) = [].
Proof.
  intros Hnot. induction states as [| s states IH]; [done |].
  unfold rounds in *. simpl. by rewrite filter_app, received_round, IH.
Qed.

Lemma broadcasts_stays_out listener m m' : broadcasts m m' -> stays_out listener m m'.
Proof.
  intros [Hl [states Hn]] Hnot. split; [by rewrite Hl |].
  unfold received. by rewrite Hn, filter_app, received_rounds, app_nil_r.
Qed.

Lemma stays_out_subscribe listener other m :
  other ≠ listener -> stays_out listener m (subscribe other m).1.
Proof.
  intros Hne Hnot. split; [| done]. simpl.
  rewrite elem_of_app, list_elem_of_singleton. intros [? | ?]; [done | congruence].
Qed.

Lemma stays_out_unsubscribe listener other m : stays_out listener m (unsubscribe other m).
Proof.
  intros Hnot. split; [| done]. simpl. rewrite list_elem_of_filter. by intros [_ ?].
Qed.

Lemma unsubscribe_removes listener m : listener ∉ listeners (unsubscribe listener m).
Proof. simpl. rewrite list_elem_of_filter. by intros [? _]. Qed.

(** The bodies waiting in a reachable loop only ever broadcast. *)
Lemma reachable_pending turns : Forall (Segments broadcasts) (pending (schedule turns)).
Proof.
  apply schedule_pending;
    first [ apply broadcasts_refl | apply broadcasts_trans | apply broadcasts_notifyListeners
          | intros; by apply broadcasts_quiet ].
Qed.

Lemma turn_broadcasts l t :
  Forall (Segments broadcasts) (pending l) ->
  (forall op, t = Invoke op -> listener_op op = false) ->
  broadcasts (manager l) (manager (turn l t)).
Proof.
  intros Hl Ht. apply turn_manager; [apply broadcasts_refl | done |].
  intros op ->. specialize (Ht op eq_refl).
  apply TaskSegments_task_of;
    first [ done | apply broadcasts_refl | apply broadcasts_trans
          | apply broadcasts_notifyListeners | intros; by apply broadcasts_quiet ].
Qed.

Lemma turn_broadcasts_pending l t :
  Forall (Segments broadcasts) (pending l) ->
  Forall (Segments broadcasts) (pending (turn l t)).
Proof.
  apply turn_pending;
    first [ apply broadcasts_refl | apply broadcasts_trans | apply broadcasts_notifyListeners
          | intros; by apply broadcasts_quiet ].
Qed.

(** A turn changes the listener array as [subscribe] and the closure say,
    and not otherwise. *)
Lemma turn_registered l t :
  Forall (Segments broadcasts) (pending l) ->
  listeners (manager (turn l t)) = registered (listeners (manager l)) t.
Proof.
  intros Hl. destruct t as [op | i env].
  - destruct (listener_op op) eqn:Hop.
    + destruct op; done.
    + assert (Hb : broadcasts (manager l) (manager (turn l (Invoke op)))).
      { apply turn_broadcasts; [done |]. by intros ? [= <-]. }
      destruct Hb as [-> _]. destruct op; done.
  - assert (Hb : broadcasts (manager l) (manager (turn l (Settle i env)))).
    { by apply turn_broadcasts. }
    by destruct Hb as [-> _].
Qed.

(** What a turn adds to the listener invocations is whole passes over the
    listener array. *)
Lemma turn_notified l t :
  Forall (Segments broadcasts) (pending l) ->
  exists states,
    notified (manager (turn l t))
      = (notified (manager l) ++ rounds (listeners (manager l)) states)%list.
Proof.
  intros Hl. destruct t as [op | i env].
  - destruct (listener_op op) eqn:Hop.
    + exists []. destruct op; try done; simpl; by rewrite app_nil_r.
    + apply turn_broadcasts; [done |]. by intros ? [= <-].
  - by apply turn_broadcasts.
Qed.

Lemma turn_stays_out listener l t :
  Forall (Segments broadcasts) (pending l) ->
  t ≠ Invoke (Subscribe listener) ->
  stays_out listener (manager l) (manager (turn l t)).
Proof.
  intros Hl Ht. destruct t as [op | i env].
  - destruct op as [| | | | | | other | other].
    7: { apply stays_out_subscribe. congruence. }
    7: { apply stays_out_unsubscribe. }
    all: apply broadcasts_stays_out, turn_broadcasts; [done | by intros ? [= <-]].
  - by apply broadcasts_stays_out, turn_broadcasts.
Qed.

Lemma turns_stays_out listener turns l :
  Forall (Segments broadcasts) (pending l) ->
  Invoke (Subscribe listener) ∉ turns ->
  stays_out listener (manager l) (manager (foldl turn l turns)).
Proof.
  revert l. induction turns as [| t turns IH]; intros l Hl Hnot.
  - by intros ?.
  - apply not_elem_of_cons in Hnot as [Hne Hnot]. simpl. intros Hout.
    destruct (turn_stays_out listener l t Hl) as [Hout' Hrec]; [congruence | done |].
    destruct (IH (turn l t) (turn_broadcasts_pending l t Hl) Hnot Hout') as [Hout'' Hrec'].
    split; [done | congruence].
Qed.

Lemma turns_registered turns l :
  Forall (Segments broadcasts) (pending l) ->
  listeners (manager (foldl turn l turns)) = foldl registered (listeners (manager l)) turns.
Proof.
  revert l. induction turns as [| t turns IH]; intros l Hl; [done |].
  simpl. rewrite IH, turn_registered; [done.. |]. by apply turn_broadcasts_pending.
Qed.

(** C9: [subscribe] appends the listener to the array and returns a
    closure that filters that listener, and nothing else, out of the
    array.  In every loop state the manager can reach, once the closure
    has run the listener is not in the array, and through any later turns
    that do not subscribe it again it stays out and is never invoked; the
    array is always the listeners in the order they were registered,
    without the removed ones; and whatever a turn adds to the listener
    invocations is whole passes over that array, front to back, each pass
    with one state. *)
Theorem C9_unsubscribe (listener : Listener) (before after : list Turn) :
  Invoke (Subscribe listener) ∉ after ->
  let l0 := schedule before in
  let l1 := turn l0 (Invoke (Unsubscribe listener)) in
  let l2 := foldl turn l1 after in
  (forall m, listeners (subscribe listener m).1 = (listeners m ++ [listener])%list) /\
  (forall m m', (subscribe listener m).2 m'
                = set_listeners (filter (fun l => l ≠ listener) (listeners m')) m') /\
  listeners (manager l1) = filter (fun l => l ≠ listener) (listeners (manager l0)) /\
  notified (manager l1) = notified (manager l0) /\
  (listener ∉ listeners (manager l1)) /\
  (listener ∉ listeners (manager l2)) /\
  received listener (manager l2) = received listener (manager l0) /\
  listeners (manager l2)
    = foldl registered [] (before ++ Invoke (Unsubscribe listener) :: after) /\
  (forall t, exists states,
     notified (manager (turn l2 t))
       = (notified (manager l2) ++ rounds (listeners (manager l2)) states)%list).
Proof.
  intros Hafter l0 l1 l2.
  assert (H0 : Forall (Segments broadcasts) (pending l0)) by apply reachable_pending.
  assert (H1 : Forall (Segments broadcasts) (pending l1)) by by apply turn_broadcasts_pending.
  assert (H2 : Forall (Segments broadcasts) (pending l2)).
  { unfold l2, l1, l0, schedule. rewrite <- foldl_snoc, <- foldl_app. apply reachable_pending. }
  assert (Hout : listener ∉ listeners (manager l1)) by apply unsubscribe_removes.
  destruct (turns_stays_out listener after l1 H1 Hafter Hout) as [Hout2 Hrec].
  split; [done |]. split; [done |]. split; [done |]. split; [done |].
  split; [done |]. split; [done |]. split; [done |]. split.
  - unfold l2, l1, l0, schedule. rewrite <- foldl_snoc, <- foldl_app.
    rewrite turns_registered; [| apply new_SupabaseAuth_pending;
      first [ apply broadcasts_refl | apply broadcasts_trans
            | apply broadcasts_notifyListeners | intros; by apply broadcasts_quiet ]].
    by rewrite <- app_assoc.
  - intros t. by apply turn_notified.
Qed.

Lemma C9_unsubscribe_witness :
  let l0 := schedule two_subscribers in
  let l2 := foldl turn (turn l0 (Invoke (Unsubscribe 7))) busy_afterwards in
  listeners (manager l0) = [7; 8] /\
  listeners (manager l2) = [8] /\
  received 7 (manager l2) = [state_of_profile ann_profile ann] /\
  length (received 8 (manager l2)) = 4.
Proof.
  intros l0 l2.
  destruct (C9_unsubscribe 7 two_subscribers busy_afterwards)
    as (_ & _ & _ & _ & _ & _ & Hrec & Hreg & _).
  - unfold busy_afterwards. rewrite !not_elem_of_cons.
    repeat split; try discriminate. apply not_elem_of_nil.
  - split; [reflexivity |]. split; [exact Hreg |]. split; [| reflexivity].
    unfold l2, l0. rewrite Hrec. reflexivity.
Defined.

(** ** The segments the methods are made of *)

(** Every synchronous segment of every method does nothing, logs, stores a
    resolved or the empty state and notifies, or stores a merged user and
    notifies.  A relation that holds of these steps holds across every
    segment, in whatever order bodies are resumed. *)
Section SegmentCatalogue.
Variable P : SupabaseAuth -> SupabaseAuth -> Prop.
Hypothesis P_idle : forall m, P m m.
Hypothesis P_log : forall label m, P m (console_error label m).
Hypothesis P_resolved_profile :
  forall profile user m,
    P m (notifyListeners (set_authState (state_of_profile profile user) m)).
Hypothesis P_resolved_session :
  forall user m, P m (notifyListeners (set_authState (state_of_session user) m)).
Hypothesis P_cleared : forall m, P m (clearAuthState m).
Hypothesis P_updated : forall u m, P m (notifyListeners (set_authState_user u m)).

Ltac walk :=
  repeat (simpl;
    match goal with
    | |- _ /\ _ => split
    | |- Segments _ (Done _) => constructor
    | |- Segments _ (Wait _ _) => constructor; intros ? ?
    | |- P _ _ => first [ apply P_idle | apply P_log | apply P_resolved_profile
                        | apply P_resolved_session | apply P_cleared | apply P_updated ]
    | |- context [match ?x with _ => _ end] =>
        first [ is_var x; destruct x
              | lazymatch type of x with
                | bool => destruct x
                | option _ => destruct x
                end ]
    end).

Lemma catalogue_task_of op m :
  listener_op op = false -> P m (task_of op m).1 /\ Segments P (task_of op m).2.
Proof.
  destruct op; try done; intros _;
    unfold task_of, forget, login, register, logout, updateProfile, resetPassword,
      onAuthStateChange, setUserFromSession, read_authState, bind, await, sync, ret;
    walk.
Qed.

Lemma catalogue_waiting op m : Segments P (task_of op m).2.
Proof.
  destruct (listener_op op) eqn:Hop.
  - destruct op; try done; constructor.
  - by apply catalogue_task_of.
Qed.

Lemma catalogue_turn_pending l t :
  Forall (Segments P) (pending l) -> Forall (Segments P) (pending (turn l t)).
Proof.
  intros Hl. destruct t as [op | i env]; simpl.
  - pose proof (catalogue_waiting op (manager l)) as Hw.
    destruct (task_of op (manager l)) as [m' s]. simpl.
    apply Forall_app. split; [done |].
    destruct s; simpl; [apply Forall_nil_2 | apply Forall_cons_2; [done | apply Forall_nil_2]].
  - destruct (pending l !! i) as [[r | c k] |] eqn:Hi; try done.
    pose proof (Forall_lookup_1 _ _ _ _ Hl Hi) as Hk.
    apply Segments_Wait_inv in Hk as [_ Hk2]. specialize (Hk2 (env c) (manager l)).
    destruct (k (env c) (manager l)) as [m' s]. simpl.
    apply Forall_app. split; [by apply Forall_delete |].
    destruct s; simpl; [apply Forall_nil_2 | apply Forall_cons_2; [done | apply Forall_nil_2]].
Qed.

Lemma catalogue_turns_pending turns l :
  Forall (Segments P) (pending l) -> Forall (Segments P) (pending (foldl turn l turns)).
Proof.
  revert l. induction turns as [| t turns IH]; intros l Hl; simpl; [done |].
  by apply IH, catalogue_turn_pending.
Qed.

(** A turn that resumes a body, or starts anything but [subscribe] and the
    closure, is one of the catalogued steps. *)
Lemma catalogue_turn_manager l t :
  Forall (Segments P) (pending l) ->
  (forall op, t = Invoke op -> listener_op op = false) ->
  P (manager l) (manager (turn l t)).
Proof.
  intros Hl Ht. apply turn_manager; [done | done |].
  intros op ->. by apply catalogue_task_of, Ht.
Qed.

(** [initializeAuth] registers the callback at the end of its last
    segment. *)
Hypothesis P_then_registered : forall m m', P m m' -> P m (register_authHandler m').

Lemma catalogue_initializeAuth m : P m (initializeAuth m).1 /\ Segments P (initializeAuth m).2.
Proof.
  unfold initializeAuth, setUserFromSession, bind, await, sync, ret. walk.
  all: apply P_then_registered; walk.
Qed.

Lemma catalogue_new : Forall (Segments P) (pending new_SupabaseAuth).
Proof.
  unfold new_SupabaseAuth. destruct (catalogue_initializeAuth fresh) as [_ H].
  destruct (initializeAuth fresh) as [m s].
  destruct s; simpl; [apply Forall_nil_2 | apply Forall_cons_2; [done | apply Forall_nil_2]].
Qed.

Lemma catalogue_schedule turns : Forall (Segments P) (pending (schedule turns)).
Proof. apply catalogue_turns_pending, catalogue_new. Qed.

End SegmentCatalogue.

(** ** The state under every interleaving *)

(** X1: with one operation at a time, in every state the manager reaches
    [isAuthenticated] is true exactly when a user is present, whatever the
    provider and the table answer. *)
Theorem X1_one_at_a_time_authenticated_iff_user env (steps : list (Op * Env)) :
  getIsAuthenticated (one_at_a_time env steps) = true
  <-> is_Some (getCurrentUser (one_at_a_time env steps)).
Proof.
  pose proof (one_at_a_time_consistent env steps) as H.
  unfold consistent in H. unfold getIsAuthenticated, getCurrentUser. rewrite H.
  apply bool_decide_eq_true.
Qed.

Lemma plausible_empty : plausible emptyAuthState.
Proof. split; intros; done. Qed.

Lemma plausible_of_profile profile user : plausible (state_of_profile profile user).
Proof. split; intros; [done | by eexists]. Qed.

Lemma plausible_of_session user : plausible (state_of_session user).
Proof. split; intros; [done | by eexists]. Qed.

Lemma keeps_plausible_same m m' : authState m' = authState m -> keeps_plausible m m'.
Proof. intros Heq H. by rewrite Heq. Qed.

Lemma keeps_plausible_replaced s m m' :
  authState m' = s -> plausible s -> keeps_plausible m m'.
Proof. intros <- Hs _. done. Qed.

Lemma keeps_plausible_updated u m :
  keeps_plausible m (notifyListeners (set_authState_user u m)).
Proof. intros [H1 H2]. split; [done | by intros _; eexists]. Qed.

Ltac plausible_step :=
  first [ apply keeps_plausible_updated
        | intros; by apply keeps_plausible_same
        | intros; eapply keeps_plausible_replaced;
            [ reflexivity
            | first [ apply plausible_empty | apply plausible_of_profile
                    | apply plausible_of_session ] ]
        | intros ? ? H; exact H ].

Lemma keeps_plausible_pending l t :
  Forall (Segments keeps_plausible) (pending l) ->
  Forall (Segments keeps_plausible) (pending (turn l t)).
Proof. apply catalogue_turn_pending; plausible_step. Qed.

Lemma keeps_plausible_turn l t :
  Forall (Segments keeps_plausible) (pending l) ->
  keeps_plausible (manager l) (manager (turn l t)).
Proof.
  intros Hl. destruct t as [op | i env].
  - destruct (listener_op op) eqn:Hop.
    + destruct op; try done; by apply keeps_plausible_same.
    + apply catalogue_turn_manager; try plausible_step; [done |]. by intros ? [= <-].
  - apply catalogue_turn_manager; try plausible_step; done.
Qed.

(** X2: under every schedule of the event loop, overlapping calls
    included, the manager never reports [isAuthenticated] without a user,
    and never has [isOnboardingComplete] without [isAuthenticated]. *)
Theorem X2_never_authenticated_without_user (turns : list Turn) :
  let m := manager (schedule turns) in
  (getIsAuthenticated m = true -> is_Some (getCurrentUser m)) /\
  (isOnboardingComplete (getAuthState m) = true -> getIsAuthenticated m = true).
Proof.
  assert (Hcat : forall ts l,
             Forall (Segments keeps_plausible) (pending l) ->
             plausible (authState (manager l)) ->
             plausible (authState (manager (foldl turn l ts)))).
  { induction ts as [| t ts IH]; intros l Hl Hp; [done |]. simpl. apply IH.
    - by apply keeps_plausible_pending.
    - by apply keeps_plausible_turn. }
  destruct (Hcat turns new_SupabaseAuth) as [H1 H2].
  - apply catalogue_new; plausible_step.
  - apply plausible_empty.
  - split; [exact H2 | exact H1].
Qed.

(** ** Every change of state is announced *)

Lemma announces_quiet m m' :
  listeners m' = listeners m -> notified m' = notified m -> authState m' = authState m ->
  announces m m'.
Proof.
  intros Hl Hn Hs. split; [done |]. exists []. by rewrite Hn, app_nil_r.
Qed.

Lemma announces_notifyListeners m m1 :
  listeners m1 = listeners m -> notified m1 = notified m ->
  announces m (notifyListeners m1).
Proof.
  intros Hl Hn. split; [done |]. exists [authState m1]. simpl.
  unfold rounds, round. simpl. by rewrite Hl, Hn, app_nil_r.
Qed.

Ltac announces_step :=
  first [ intros; by apply announces_quiet
        | intros; by apply announces_notifyListeners
        | intros ? ? H; exact H ].

Lemma announces_pending turns : Forall (Segments announces) (pending (schedule turns)).
Proof. apply catalogue_schedule; announces_step. Qed.

Lemma announces_turn l t :
  Forall (Segments announces) (pending l) ->
  (forall op, t = Invoke op -> listener_op op = false) ->
  announces (manager l) (manager (turn l t)).
Proof. intros Hl Ht. apply catalogue_turn_manager; try announces_step; done. Qed.

(** X3: in every loop state the manager can reach, whatever a turn adds to
    the listener invocations is whole passes over the listener array, and
    the [AuthState] after the turn is the state of the last pass; a turn
    without a pass leaves the [AuthState] as it was.  So no method changes
    the state without handing the new state to every registered
    listener. *)
Theorem X3_every_change_is_announced (turns : list Turn) (t : Turn) :
  let l := schedule turns in
  exists states,
    notified (manager (turn l t))
      = (notified (manager l) ++ rounds (listeners (manager l)) states)%list /\
    authState (manager (turn l t)) = default (authState (manager l)) (last states).
Proof.
  intros l. pose proof (announces_pending turns) as Hl. fold l in Hl.
  destruct t as [op | i env].
  - destruct (listener_op op) eqn:Hop.
    + exists []. destruct op; try done; simpl; by rewrite app_nil_r.
    + apply announces_turn; [done |]. by intros ? [= <-].
  - by apply announces_turn.
Qed.

(** ** [login], [register] and [resetPassword] beyond the successful path *)

(** X5: [login] fails without touching the manager and without querying
    the profile table when the sign-in request answers with an error
    (even if it also carries a user), answers with neither error nor user,
    or is rejected; the message is the provider's, and the fixed login
    message when there is none or it is empty. *)
Theorem X5_login_failures env m email password :
  let r := run (login email password) env m in
  let generic := "ログインに失敗しました" in
  (forall d e,
     env (auth_signInWithPassword email password)
       = Fulfilled {| data := d; error := Some e |} ->
     returned r = {| success := false; result_error := Some (message e) |} /\
     state_after r = m /\
     requests r = [auth_signInWithPassword email password]) /\
  (env (auth_signInWithPassword email password)
     = Fulfilled {| data := None; error := None |} ->
   returned r = {| success := false; result_error := Some generic |} /\
   state_after r = m /\
   requests r = [auth_signInWithPassword email password]) /\
  (forall exn,
     env (auth_signInWithPassword email password) = Rejected exn ->
     returned r =
       {| success := false;
          result_error :=
            Some match exn_message exn with
                 | Some text => if decide (text = "") then generic else text
                 | None => generic
                 end |} /\
     state_after r = m /\
     requests r = [auth_signInWithPassword email password]).
Proof.
  unfold run, login, bind, await. simpl.
  split; [| split].
  - intros d e ->. done.
  - intros ->. done.
  - intros exn ->. simpl. by rewrite or_else_cases.
Qed.

Lemma X5_login_failures_witness :
  let rejecting : Env :=
    env_of {| on_getSession := Fulfilled None;
              on_signInWithPassword :=
                Fulfilled {| data := Some ann; error := Some denied |};
              on_signUp := Rejected {| exn_message := None |};
              on_signOut := Rejected {| exn_message := None |};
              on_resetPasswordForEmail := Rejected {| exn_message := None |};
              on_select := Fulfilled {| data := Some ann_profile; error := None |};
              on_insert := Rejected {| exn_message := None |};
              on_update := Rejected {| exn_message := None |} |} in
  returned (run (login "a@x.com" "wrong") rejecting fresh)
    = {| success := false; result_error := Some (message denied) |} /\
  state_after (run (login "a@x.com" "wrong") rejecting fresh) = fresh.
Proof.
  intros rejecting.
  destruct (X5_login_failures rejecting fresh "a@x.com" "wrong") as (H & _ & _).
  destruct (H (Some ann) denied eq_refl) as (H1 & H2 & _). split; assumption.
Defined.

(** X6: once the sign-in request has returned a user without error,
    [login] returns success whatever the profile lookup does; when the
    lookup answers with an error other than not-found, or is rejected, the
    [AuthState] is the one from before the call and no listener is
    invoked. *)
Theorem X6_login_success_despite_lookup env m email password sessionUser :
  env (auth_signInWithPassword email password)
    = Fulfilled {| data := Some sessionUser; error := None |} ->
  let r := run (login email password) env m in
  returned r = succeeded /\
  requests r = [auth_signInWithPassword email password;
                profiles_select_single (User.id sessionUser)] /\
  (forall response,
     env (profiles_select_single (User.id sessionUser)) = Fulfilled response ->
     fatal (error response) = true ->
     authState (state_after r) = authState m /\ notified (state_after r) = notified m) /\
  (forall exn,
     env (profiles_select_single (User.id sessionUser)) = Rejected exn ->
     authState (state_after r) = authState m /\ notified (state_after r) = notified m).
Proof.
  intros Hin. unfold run, login, setUserFromSession, bind, await. simpl.
  rewrite Hin. simpl.
  destruct (env (profiles_select_single _)) as [response | exn] eqn:Hsel; simpl.
  - destruct (fatal (error response)) eqn:Hfatal; simpl.
    + split; [done |]. split; [done |]. split; [done |]. intros ? [=].
    + split; [done |]. split; [done |]. split; [| intros ? [=]].
      intros ? [= <-]. congruence.
  - split; [done |]. split; [done |]. split; [intros ? [=] | done].
Qed.

Lemma X6_login_success_despite_lookup_witness :
  returned (run (login "a@x.com" "secret") (env_of table_refused) fresh) = succeeded /\
  authState (state_after (run (login "a@x.com" "secret") (env_of table_refused) fresh))
    = emptyAuthState.
Proof.
  destruct (X6_login_success_despite_lookup (env_of table_refused) fresh
              "a@x.com" "secret" ann) as (H1 & _ & H3 & _).
  - reflexivity.
  - split; [exact H1 |].
    destruct (H3 {| data := None; error := Some denied |}) as [H _]; [reflexivity.. |].
    exact H.
Defined.

(** X7: [register] fails without touching the manager when the sign-up
    request answers with an error, answers with neither error nor user, or
    is rejected, and then sends nothing to the profile table.  It also
    fails, again without touching the manager and without looking the
    profile up, when the sign-up succeeded but the insert request is
    rejected rather than answered with an error. *)
Theorem X7_register_failures env m userData :
  let r := run (register userData) env m in
  let signUp :=
    auth_signUp (UserData.email userData) (UserData.password userData)
      (signUp_data userData) in
  let generic := "登録に失敗しました" in
  (forall d e,
     env signUp = Fulfilled {| data := d; error := Some e |} ->
     returned r = {| success := false; result_error := Some (message e) |} /\
     state_after r = m /\ requests r = [signUp]) /\
  (env signUp = Fulfilled {| data := None; error := None |} ->
   returned r = {| success := false; result_error := Some generic |} /\
   state_after r = m /\ requests r = [signUp]) /\
  (forall exn,
     env signUp = Rejected exn ->
     success (returned r) = false /\ state_after r = m /\ requests r = [signUp]) /\
  (forall sessionUser exn,
     env signUp = Fulfilled {| data := Some sessionUser; error := None |} ->
     env (profiles_insert (new_profile (User.id sessionUser) userData)) = Rejected exn ->
     success (returned r) = false /\
     state_after r = m /\
     requests r = [signUp; profiles_insert (new_profile (User.id sessionUser) userData)]).
Proof.
  unfold run, register, bind, await. simpl.
  split; [| split; [| split]].
  - intros d e ->. done.
  - intros ->. done.
  - intros exn ->. done.
  - intros sessionUser exn -> Hins. simpl. rewrite Hins. done.
Qed.

Lemma X7_register_failures_witness :
  let insert_rejected : Env :=
    env_of {| on_getSession := Fulfilled None;
              on_signInWithPassword := Fulfilled {| data := Some ann; error := None |};
              on_signUp := Fulfilled {| data := Some ann; error := None |};
              on_signOut := Fulfilled {| data := tt; error := None |};
              on_resetPasswordForEmail := Fulfilled {| data := tt; error := None |};
              on_select := Fulfilled {| data := Some ann_profile; error := None |};
              on_insert := Rejected {| exn_message := Some "Failed to fetch" |};
              on_update := Fulfilled {| data := None; error := None |} |} in
  success (returned (run (register ann_data) insert_rejected fresh)) = false /\
  state_after (run (register ann_data) insert_rejected fresh) = fresh.
Proof.
  intros insert_rejected.
  destruct (X7_register_failures insert_rejected fresh ann_data) as (_ & _ & _ & H).
  destruct (H ann {| exn_message := Some "Failed to fetch" |} eq_refl eq_refl)
    as (H1 & H2 & _).
  split; assumption.
Defined.

(** X8: when the sign-up returns a user, the insert succeeds and the
    lookup that follows answers with the very row [register] inserted,
    [register] sends sign-up, insert and lookup in that order, returns
    success, and leaves an authenticated, onboarded user that carries the
    registration data: the provider's id, the registered e-mail, company,
    position, phone and department, role [user], no avatar, and the
    registered name, or the session's e-mail address when that name is
    empty. *)
Theorem X8_register_round_trip env m userData sessionUser d :
  env (auth_signUp (UserData.email userData) (UserData.password userData)
         (signUp_data userData))
    = Fulfilled {| data := Some sessionUser; error := None |} ->
  env (profiles_insert (new_profile (User.id sessionUser) userData))
    = Fulfilled {| data := d; error := None |} ->
  env (profiles_select_single (User.id sessionUser))
    = Fulfilled {| data := Some (new_profile (User.id sessionUser) userData);
                   error := None |} ->
  let r := run (register userData) env m in
  returned r = succeeded /\
  requests r =
    [auth_signUp (UserData.email userData) (UserData.password userData)
       (signUp_data userData);
     profiles_insert (new_profile (User.id sessionUser) userData);
     profiles_select_single (User.id sessionUser)] /\
  authState (state_after r) =
    {| user := Some
         {| AuthUser.id := User.id sessionUser;
            AuthUser.email := UserData.email userData;
            AuthUser.name :=
              if decide (UserData.name userData = "") then session_email sessionUser
              else UserData.name userData;
            AuthUser.company := UserData.company userData;
            AuthUser.position := UserData.position userData;
            AuthUser.phone := UserData.phone userData;
            AuthUser.role := role_user;
            AuthUser.department := Some (UserData.department userData);
            AuthUser.avatar_url := None |};
       isAuthenticated := true;
       isOnboardingComplete := true |}.
Proof.
  intros Hup Hins Hsel. unfold run, register, setUserFromSession, bind, await. simpl.
  rewrite Hup. simpl. rewrite Hins. simpl. rewrite Hsel. simpl.
  split; [done |]. split; [done |].
  unfold state_of_profile, session_email. cbn -[or_else].
  rewrite (or_else_default (User.email sessionUser)), !or_else_cases.
  repeat case_decide; congruence.
Qed.

Lemma X8_register_round_trip_witness :
  let stored : Env :=
    env_of {| on_getSession := Fulfilled None;
              on_signInWithPassword := Fulfilled {| data := Some ann; error := None |};
              on_signUp := Fulfilled {| data := Some ann; error := None |};
              on_signOut := Fulfilled {| data := tt; error := None |};
              on_resetPasswordForEmail := Fulfilled {| data := tt; error := None |};
              on_select :=
                Fulfilled {| data := Some (new_profile "u1" ann_data); error := None |};
              on_insert := Fulfilled {| data := tt; error := None |};
              on_update := Fulfilled {| data := None; error := None |} |} in
  (AuthUser.company <$> user (authState (state_after (run (register ann_data) stored fresh))))
    = Some "Acme".
Proof.
  intros stored.
  destruct (X8_register_round_trip stored fresh ann_data ann tt) as (_ & _ & H).
  - reflexivity.
  - reflexivity.
  - reflexivity.
  - rewrite H. reflexivity.
Defined.

(** X9: [resetPassword] sends one request, for the given address with the
    redirect target [origin/reset-password], never touches the manager,
    and returns success exactly when the request is answered without
    error. *)
Theorem X9_resetPassword env m email origin :
  let r := run (resetPassword email origin) env m in
  let request := auth_resetPasswordForEmail email (origin ++ "/reset-password") in
  state_after r = m /\
  requests r = [request] /\
  (success (returned r) = true <-> exists d, env request = Fulfilled {| data := d; error := None |}).
Proof.
  unfold run, resetPassword, bind, await. simpl.
  destruct (env _) as [[d [e |]] | exn]; simpl; (split; [done |]); (split; [done |]).
  - split; [done |]. intros [d' [=]].
  - split; [| done]. intros _. by exists d.
  - split; [done |]. intros [d' [=]].
Qed.

(** ** Start-up and the provider's events *)

Ltac unregistered_step := first [ intros; by intros ? | intros ? ? H; exact H ].

Lemma keeps_unregistered_turn l t :
  Forall (Segments keeps_unregistered) (pending l) ->
  keeps_unregistered (manager l) (manager (turn l t)).
Proof.
  intros Hl. destruct t as [op | i env].
  - destruct (listener_op op) eqn:Hop.
    + destruct op; try done; by intros ?.
    + apply catalogue_turn_manager; try unregistered_step; [done |]. by intros ? [= <-].
  - apply catalogue_turn_manager; try unregistered_step; done.
Qed.

Lemma keeps_unregistered_turns turns l :
  Forall (Segments keeps_unregistered) (pending l) ->
  keeps_unregistered (manager l) (manager (foldl turn l turns)).
Proof.
  revert l. induction turns as [| t turns IH]; intros l Hl; [by intros ? |].
  simpl. intros H. apply IH.
  - apply catalogue_turn_pending; try unregistered_step; done.
  - by apply keeps_unregistered_turn.
Qed.

(** X10: [initializeAuth] registers the [onAuthStateChange] callback only
    after [getSession] has been fulfilled.  If [getSession] is rejected,
    the callback is never registered, whatever happens later, and no
    provider event, a sign-out included, ever changes the manager. *)
Theorem X10_rejected_getSession_disables_events env exn (turns : list Turn) event session :
  env auth_getSession = Rejected exn ->
  let l := foldl turn (turn new_SupabaseAuth (Settle 0 env)) turns in
  authHandler (manager l) = false /\
  manager (turn l (Invoke (AuthChange event session))) = manager l /\
  pending (turn l (Invoke (AuthChange event session))) = pending l.
Proof.
  intros Hrej l.
  assert (Hoff : authHandler (manager l) = false).
  { apply keeps_unregistered_turns.
    - simpl. rewrite Hrej. simpl. apply Forall_nil_2.
    - simpl. rewrite Hrej. done. }
  split; [done |]. simpl. rewrite Hoff. simpl. split; [done | by rewrite app_nil_r].
Qed.

Lemma X10_rejected_getSession_disables_events_witness :
  let offline : Env := fun c => Rejected {| exn_message := Some "Failed to fetch" |} in
  let l := foldl turn (turn new_SupabaseAuth (Settle 0 offline))
             [ Invoke (Login "a@x.com" "secret"); Settle 0 (env_of online);
               Settle 0 (env_of online) ] in
  isAuthenticated (authState (manager l)) = true /\
  manager (turn l (Invoke (AuthChange "SIGNED_OUT" None))) = manager l.
Proof.
  intros offline l.
  destruct (X10_rejected_getSession_disables_events offline
              {| exn_message := Some "Failed to fetch" |}
              [ Invoke (Login "a@x.com" "secret"); Settle 0 (env_of online);
                Settle 0 (env_of online) ] "SIGNED_OUT" None eq_refl) as (_ & H & _).
  split; [reflexivity | exact H].
Defined.

(** X11: when [getSession] is fulfilled, start-up run to completion ends
    with the callback registered, also when the profile lookup failed;
    from then on a [SIGNED_OUT] event clears the state and hands the empty
    state to every listener, and an event that is neither [SIGNED_IN] nor
    [SIGNED_OUT] changes nothing and sends nothing. *)
Theorem X11_events_after_start_up env env' session session' m event :
  env auth_getSession = Fulfilled session ->
  authHandler (constructed env) = true /\
  (authHandler m = true ->
   run (task_of (AuthChange "SIGNED_OUT" session')) env' m = (clearAuthState m, [], tt)) /\
  (event ≠ "SIGNED_IN" -> event ≠ "SIGNED_OUT" ->
   run (task_of (AuthChange event session')) env' m = (m, [], tt)).
Proof.
  intros Hget. split; [| split].
  - unfold constructed, run, initializeAuth, setUserFromSession, bind, await. simpl.
    rewrite Hget. simpl. destruct (session ≫= session_user) as [u |]; simpl; [| done].
    destruct (env (profiles_select_single _)) as [response | ?]; simpl; [| done].
    by destruct (fatal (error response)).
  - intros Hon. unfold run. simpl. rewrite Hon. done.
  - intros Hin Hout. unfold run. simpl.
    destruct (authHandler m); [| done]. unfold onAuthStateChange.
    destruct (String.eqb_spec event "SIGNED_IN"); [done |].
    destruct (String.eqb_spec event "SIGNED_OUT"); [done |].
    by destruct (session' ≫= session_user).
Qed.

Lemma X11_events_after_start_up_witness :
  let lookup_refused : Env :=
    env_of {| on_getSession := Fulfilled (Some {| session_user := Some ann |});
              on_signInWithPassword := Fulfilled {| data := Some ann; error := None |};
              on_signUp := Fulfilled {| data := Some ann; error := None |};
              on_signOut := Fulfilled {| data := tt; error := None |};
              on_resetPasswordForEmail := Fulfilled {| data := tt; error := None |};
              on_select := Fulfilled {| data := None; error := Some denied |};
              on_insert := Fulfilled {| data := tt; error := None |};
              on_update := Fulfilled {| data := None; error := None |} |} in
  authHandler (constructed lookup_refused) = true /\
  authState (constructed lookup_refused) = emptyAuthState /\
  run (task_of (AuthChange "TOKEN_REFRESHED" None)) (env_of online)
      (constructed (env_of online))
    = (constructed (env_of online), [], tt).
Proof.
  intros lookup_refused.
  destruct (X11_events_after_start_up lookup_refused (env_of online)
              (Some {| session_user := Some ann |}) None
              (constructed (env_of online)) "TOKEN_REFRESHED" eq_refl) as (H1 & _ & H3).
  split; [exact H1 |]. split; [reflexivity |]. apply H3; discriminate.
Defined.

(** ** More on listeners *)

(** X12: a listener that was never passed to [subscribe] is never
    invoked, under any schedule of the event loop. *)
Theorem X12_only_subscribers_are_invoked (listener : Listener) (turns : list Turn) :
  Invoke (Subscribe listener) ∉ turns ->
  received listener (manager (schedule turns)) = [] /\
  (listener ∉ listeners (manager (schedule turns))).
Proof.
  intros Hnot.
  destruct (turns_stays_out listener turns new_SupabaseAuth) as [Hout Hrec].
  - apply (reachable_pending []).
  - done.
  - apply not_elem_of_nil.
  - split; [exact Hrec | exact Hout].
Qed.

Lemma X12_only_subscribers_are_invoked_witness :
  received 9 (manager (schedule two_subscribers)) = [] /\
  length (received 8 (manager (schedule two_subscribers))) = 1.
Proof.
  destruct (X12_only_subscribers_are_invoked 9 two_subscribers) as [H _].
  - unfold two_subscribers. rewrite !not_elem_of_cons.
    repeat split; try discriminate. apply not_elem_of_nil.
  - split; [exact H | reflexivity].
Defined.

Lemma filter_out_appended (listener : Listener) (ls : list Listener) :
  filter (fun l => l ≠ listener) (ls ++ [listener])%list = filter (fun l => l ≠ listener) ls.
Proof.
  rewrite filter_app. rewrite (filter_cons_False _ listener []); [| by intros ?].
  by rewrite app_nil_r.
Qed.

Lemma filter_out_absent (listener : Listener) (ls : list Listener) :
  listener ∉ ls -> filter (fun l => l ≠ listener) ls = ls.
Proof.
  intros Hnot. induction ls as [| l ls IH]; [done |].
  apply not_elem_of_cons in Hnot as [Hne Hnot].
  rewrite filter_cons_True; [by rewrite IH | congruence].
Qed.

(** X13: calling the closure right after [subscribe] gives back the
    manager as it was, provided the listener was not registered before;
    if it was, the closure removes the earlier registrations as well, so
    a listener subscribed twice is gone after one closure call.  Calling
    a closure again changes nothing. *)
Theorem X13_subscribe_then_closure (listener : Listener) m :
  ((listener ∉ listeners m) -> (subscribe listener m).2 (subscribe listener m).1 = m) /\
  listeners ((subscribe listener m).2 (subscribe listener m).1)
    = filter (fun l => l ≠ listener) (listeners m) /\
  listeners ((subscribe listener m).2 (subscribe listener (subscribe listener m).1).1)
    = filter (fun l => l ≠ listener) (listeners m) /\
  (forall m', unsubscribe listener (unsubscribe listener m') = unsubscribe listener m').
Proof.
  split; [| split; [| split]].
  - intros Hnot. destruct m as [s ls n c h]. unfold subscribe, unsubscribe, set_listeners.
    simpl in *. by rewrite filter_out_appended, filter_out_absent.
  - simpl. apply filter_out_appended.
  - simpl. by rewrite !filter_out_appended.
  - intros m'. unfold unsubscribe, set_listeners. simpl. f_equal.
    apply filter_out_absent. rewrite list_elem_of_filter. by intros [? _].
Qed.

Lemma X13_subscribe_then_closure_witness :
  let m := set_listeners [7; 8] fresh in
  (subscribe 9 m).2 (subscribe 9 m).1 = m /\
  listeners ((subscribe 7 m).2 (subscribe 7 m).1) = [8].
Proof.
  intros m. split.
  - destruct (X13_subscribe_then_closure 9 m) as (H & _).
    apply H. unfold m. simpl. rewrite !not_elem_of_cons.
    repeat split; try discriminate. apply not_elem_of_nil.
  - destruct (X13_subscribe_then_closure 7 m) as (_ & H & _). rewrite H. reflexivity.
Defined.

(** ** More on [updateProfile] *)

(** X14: an update that carries none of name, role, department and
    avatar_url still sends an update request, with the current user's four
    values and the new timestamp, whatever id, e-mail, company, position
    or phone it carries: those five reach the local user only.  The call
    still returns success with the merged user and still invokes every
    listener; for the empty update the [AuthState] is the one from before
    the call. *)
Theorem X14_updateProfile_local_only_fields env m currentUser updates now row :
  user (authState m) = Some currentUser ->
  (forall values id,
     env (profiles_update_single values id) = Fulfilled {| data := row; error := None |}) ->
  Partial.name updates = None ->
  Partial.role updates = None ->
  Partial.department updates = None ->
  Partial.avatar_url updates = None ->
  let r := run (updateProfile updates now) env m in
  requests r =
    [profiles_update_single
       {| ProfileUpdate.full_name := AuthUser.name currentUser;
          ProfileUpdate.role := AuthUser.role currentUser;
          ProfileUpdate.department := AuthUser.department currentUser;
          ProfileUpdate.avatar_url := AuthUser.avatar_url currentUser;
          ProfileUpdate.updated_at := now |}
       (AuthUser.id currentUser)] /\
  returned r =
    {| p_success := true;
       p_data := Some
         {| AuthUser.id := default (AuthUser.id currentUser) (Partial.id updates);
            AuthUser.email := default (AuthUser.email currentUser) (Partial.email updates);
            AuthUser.name := AuthUser.name currentUser;
            AuthUser.company :=
              default (AuthUser.company currentUser) (Partial.company updates);
            AuthUser.position :=
              default (AuthUser.position currentUser) (Partial.position updates);
            AuthUser.phone := default (AuthUser.phone currentUser) (Partial.phone updates);
            AuthUser.role := AuthUser.role currentUser;
            AuthUser.department := AuthUser.department currentUser;
            AuthUser.avatar_url := AuthUser.avatar_url currentUser |};
       p_error := None |} /\
  notified (state_after r)
    = (notified m ++ round (listeners m) (authState (state_after r)))%list /\
  (updates = Partial.empty -> authState (state_after r) = authState m).
Proof.
  intros Hu Henv Hname Hrole Hdept Havatar. cbv zeta.
  rewrite (run_updateProfile_success env m currentUser updates now row Hu Henv).
  unfold update_values, spread. rewrite Hname, Hrole, Hdept, Havatar. simpl.
  split; [done |]. split; [done |]. split; [done |].
  intros ->. simpl. destruct m as [[u a o] ls n c h]. simpl in *. subst u.
  by destruct currentUser.
Qed.

Lemma X14_updateProfile_local_only_fields_witness :
  let m := set_listeners [7] (set_authState (state_of_profile ann_profile ann) fresh) in
  let move := Partial.mk None None None (Some "Initech") None None None None None in
  requests (run (updateProfile move noon) (env_of online) m) =
    [profiles_update_single
       {| ProfileUpdate.full_name := "Ann"; ProfileUpdate.role := role_user;
          ProfileUpdate.department := Some "Sales"; ProfileUpdate.avatar_url := None;
          ProfileUpdate.updated_at := noon |} "u1"] /\
  (AuthUser.company <$> p_data (returned (run (updateProfile move noon) (env_of online) m)))
    = Some "Initech".
Proof.
  intros m move.
  destruct (X14_updateProfile_local_only_fields (env_of online) m ann_auth move noon
              (Some ann_profile)) as (H1 & H2 & _); try reflexivity.
  split; [exact H1 |]. rewrite H2. reflexivity.
Defined.

(** X15: two [updateProfile] calls that are in flight together both
    compute what they send, and what they will store, from the user that
    was current when they were called; whichever is resumed last stores
    its own merged user, and the local change of the other is lost. *)
Theorem X15_overlapping_updates m currentUser first second now1 now2
    (env1 env2 : Env) row1 row2 :
  user (authState m) = Some currentUser ->
  (forall values id,
     env1 (profiles_update_single values id) = Fulfilled {| data := row1; error := None |}) ->
  (forall values id,
     env2 (profiles_update_single values id) = Fulfilled {| data := row2; error := None |}) ->
  let both :=
    turn (turn {| manager := m; pending := [] |} (Invoke (UpdateProfile first now1)))
      (Invoke (UpdateProfile second now2)) in
  awaited <$> pending both =
    [ Some (profiles_update_single (update_values first currentUser now1)
              (AuthUser.id currentUser));
      Some (profiles_update_single (update_values second currentUser now2)
              (AuthUser.id currentUser)) ] /\
  user (authState (manager (turn (turn both (Settle 0 env1)) (Settle 0 env2))))
    = Some (spread currentUser second) /\
  user (authState (manager (turn (turn both (Settle 1 env2)) (Settle 0 env1))))
    = Some (spread currentUser first).
Proof.
  intros Hu H1 H2. cbv zeta.
  unfold turn, task_of, forget, updateProfile, bind, read_authState, await. simpl.
  repeat (first [rewrite Hu | rewrite H1 | rewrite H2]; simpl). done.
Qed.

Lemma X15_overlapping_updates_witness :
  let m := set_authState (state_of_profile ann_profile ann) fresh in
  let move := Partial.mk None None None None None None None (Some (Some "Support")) None in
  let both :=
    turn (turn {| manager := m; pending := [] |} (Invoke (UpdateProfile rename_to_Bob noon)))
      (Invoke (UpdateProfile move noon)) in
  (AuthUser.name <$>
     user (authState (manager (turn (turn both (Settle 0 (env_of online)))
                                (Settle 0 (env_of online))))))
    = Some "Ann".
Proof.
  intros m move both.
  destruct (X15_overlapping_updates m ann_auth rename_to_Bob move noon noon
              (env_of online) (env_of online) (Some ann_profile) (Some ann_profile))
    as (_ & H & _).
  - reflexivity.
  - intros values id. reflexivity.
  - intros values id. reflexivity.
  - unfold both. rewrite H. reflexivity.
Defined.

(** ** The hook's [loading] flag *)

Lemma hook_turn_loop h t : hl_loop (hook_turn h t) = turn (hl_loop h) (erase t).
Proof.
  destruct t as [c | [op | i env]]; simpl; try done.
  by destruct (pending (hl_loop h) !! i) as [[r | c k] |].
Qed.

Lemma pending_after_invoke l op :
  pending (turn l (Invoke op)) = (pending l ++ park (task_of op (manager l)).2)%list.
Proof. simpl. by destruct (task_of op (manager l)). Qed.

Lemma length_park (s : Susp unit) : length (park s) = if finished s then 0 else 1.
Proof. by destruct s. Qed.

Lemma own_calls_delete (mine : list bool) i b :
  mine !! i = Some b ->
  length (filter (fun x : bool => x = true) mine)
    = length (filter (fun x : bool => x = true) (b :: delete i mine)).
Proof. intros Hi. by rewrite (delete_Permutation mine i b Hi) at 1. Qed.

Lemma own_calls_none (mine : list bool) :
  length (filter (fun x : bool => x = true) mine) = 0 <-> true ∉ mine.
Proof.
  split.
  - intros H Hin. apply length_zero_iff_nil in H.
    by apply (filter_nil_not_elem_of _ _ true H).
  - intros Hnot. induction mine as [| [] mine IH]; [done | |].
    + destruct Hnot. apply elem_of_cons. by left.
    + rewrite filter_cons_False; [| done]. apply IH. intros ?. apply Hnot.
      apply elem_of_cons. by right.
Qed.

Lemma pending_after_settle l i env c k :
  pending l !! i = Some (Wait c k) ->
  pending (turn l (Settle i env))
    = (delete i (pending l) ++ park (k (env c) (manager l)).2)%list.
Proof. intros Hi. simpl. rewrite Hi. by destruct (k (env c) (manager l)). Qed.

Lemma hook_sound_turn h t :
  hook_sound h ->
  match t with
  | Through _ => true ∉ hl_mine h
  | Outside _ => True
  end ->
  hook_sound (hook_turn h t).
Proof.
  intros [Hlen Hload] Hfree. unfold hook_sound, own_calls in *.
  destruct t as [c | [op | i env]].
  - apply own_calls_none in Hfree. unfold hook_turn. cbn [hl_mine hl_loading hl_loop].
    rewrite pending_after_invoke, !length_app, length_park, filter_app, length_app, Hfree.
    destruct (finished _); simpl; (split; [lia |]); [right | left]; split; done.
  - unfold hook_turn. cbn [hl_mine hl_loading hl_loop].
    rewrite pending_after_invoke, !length_app, length_park, filter_app, length_app.
    destruct (finished _); simpl; (split; [lia |]);
      destruct Hload as [[? ?] | [? ?]]; [left | right | left | right]; split; (done || lia).
  - unfold hook_turn.
    destruct (pending (hl_loop h) !! i) as [[r | c k] |] eqn:Hi; try done.
    assert (Hb : is_Some (hl_mine h !! i)).
    { apply lookup_lt_is_Some. rewrite Hlen. by eapply lookup_lt_Some. }
    destruct Hb as [b Hb]. rewrite Hb. cbn [hl_mine hl_loading hl_loop default].
    rewrite (pending_after_settle _ _ _ _ _ Hi), !length_app, length_park.
    rewrite filter_app, length_app, !length_delete by eauto.
    rewrite (own_calls_delete _ _ _ Hb) in Hload.
    assert (Hpos : 0 < length (pending (hl_loop h))) by (apply lookup_lt_Some in Hi; lia).
    destruct (finished _), b; simpl in *;
      rewrite ?filter_cons_True, ?filter_cons_False in Hload by done;
      rewrite ?filter_cons_True, ?filter_cons_False by done;
      simpl in *; (split; [lia |]);
      destruct Hload as [[? ?] | [? ?]];
      first [ left; split; (done || lia) | right; split; (done || lia) ].
Qed.

Lemma hook_sound_mounted l : hook_sound (hook_mounted l).
Proof.
  split; [apply length_replicate |]. right. split; [done |].
  apply own_calls_none. simpl. intros [? _]%elem_of_replicate. done.
Qed.

(** X16: as long as the hook's wrappers are never called while one of its
    calls is still waiting, [loading] is true exactly while a call of the
    hook is waiting, whatever else the loop does in between; and the
    wrappers change nothing in what the manager does. *)
Theorem X16_loading_while_in_flight (l : Loop) (turns : list HookTurn) :
  one_call_at_a_time (hook_mounted l) turns ->
  let h := foldl hook_turn (hook_mounted l) turns in
  (hl_loading h = true <-> true ∈ hl_mine h) /\
  length (hl_mine h) = length (pending (hl_loop h)) /\
  hl_loop h = foldl turn l (erase <$> turns).
Proof.
  intros Hseq h.
  assert (Hgen : forall ts h0, hook_sound h0 -> one_call_at_a_time h0 ts ->
             hook_sound (foldl hook_turn h0 ts) /\
             hl_loop (foldl hook_turn h0 ts) = foldl turn (hl_loop h0) (erase <$> ts)).
  { induction ts as [| t ts IH]; intros h0 Hs Hone; [done |].
    destruct Hone as [Hfree Hone]. simpl.
    destruct (IH (hook_turn h0 t)) as [H1 H2]; [by apply hook_sound_turn | done |].
    split; [done |]. by rewrite H2, hook_turn_loop. }
  destruct (Hgen turns (hook_mounted l) (hook_sound_mounted l) Hseq) as [[Hlen Hload] Hloop].
  fold h in Hlen, Hload, Hloop. split; [| by split].
  pose proof (own_calls_none (hl_mine h)) as Hnone. unfold own_calls in Hload.
  destruct Hload as [[-> Hone] | [-> Hzero]].
  - split; [| done]. intros _. destruct (decide (true ∈ hl_mine h)) as [| Hnot]; [done |].
    apply Hnone in Hnot. lia.
  - split; [done |]. intros Hin. by apply Hnone in Hin.
Qed.

Lemma X16_loading_while_in_flight_witness :
  let l := schedule [Settle 0 (env_of online)] in
  let seen :=
    [ Through (h_login "a@x.com" "secret"); Outside (Settle 0 (env_of online));
      Outside (Invoke (AuthChange "SIGNED_IN" (Some {| session_user := Some ann |})));
      Outside (Settle 0 (env_of online)) ] in
  hl_loading (foldl hook_turn (hook_mounted l) (take 3 seen)) = true /\
  hl_loading (foldl hook_turn (hook_mounted l) seen) = false /\
  hl_mine (foldl hook_turn (hook_mounted l) seen) = [false].
Proof.
  intros l seen. split; [| split].
  - apply (X16_loading_while_in_flight l (take 3 seen)).
    + simpl. split; [apply not_elem_of_nil | done].
    + vm_compute. apply elem_of_cons. by left.
  - reflexivity.
  - reflexivity.
Defined.

(** X17: when two calls of the hook are waiting and one of them returns,
    [loading] becomes false although the other is still waiting. *)
Theorem X17_loading_off_with_a_call_waiting h i j env c k :
  i ≠ j ->
  hl_mine h !! i = Some true ->
  hl_mine h !! j = Some true ->
  pending (hl_loop h) !! i = Some (Wait c k) ->
  finished (k (env c) (manager (hl_loop h))).2 = true ->
  let h' := hook_turn h (Outside (Settle i env)) in
  hl_loading h' = false /\ true ∈ hl_mine h'.
Proof.
  intros Hij Hi Hj Hp Hdone. simpl. rewrite Hp, Hi, Hdone. simpl. split; [done |].
  rewrite app_nil_r. destruct (decide (j < i)) as [Hlt | Hge].
  - apply (list_elem_of_lookup_2 _ j). by rewrite list_lookup_delete_lt.
  - apply (list_elem_of_lookup_2 _ (pred j)). rewrite list_lookup_delete_ge by lia.
    replace (S (pred j)) with j by lia. done.
Qed.

Lemma X17_loading_off_with_a_call_waiting_witness :
  let l := schedule [Settle 0 (env_of online)] in
  let h := foldl hook_turn (hook_mounted l)
             [ Through (h_resetPassword "a@x.com" "https://app.example");
               Through (h_login "a@x.com" "secret") ] in
  let h' := hook_turn h (Outside (Settle 0 (env_of online))) in
  hl_loading h = true /\
  hl_loading h' = false /\
  (awaited <$> pending (hl_loop h')) = [Some (auth_signInWithPassword "a@x.com" "secret")].
Proof.
  intros l h h'. split; [reflexivity |]. split; [| reflexivity].
  eapply (X17_loading_off_with_a_call_waiting h 0 1 (env_of online)).
  - discriminate.
  - reflexivity.
  - reflexivity.
  - reflexivity.
  - reflexivity.
Defined.

(** ** The table services *)

(** X18: the two application lists filter by owner only when they are
    given a non-empty user id: without an id, and with the empty string,
    they query every user's rows.  The notification list always filters
    by the id it is given, the empty string included.  All three select
    every column, newest first. *)
Theorem X18_owner_filter {D E : Type} (handleSupabaseError : ApiError + Exn -> E)
    (userId : option string) (owner : string) :
  let expenses := (getExpenseApplications (D := D) handleSupabaseError userId).1 in
  let trips := (getBusinessTripApplications (D := D) handleSupabaseError userId).1 in
  let notes := (getNotifications (D := D) handleSupabaseError owner).1 in
  (forall id, q_eq "user_id" id ∈ q_clauses expenses <-> userId = Some id /\ id ≠ "") /\
  (forall id, q_eq "user_id" id ∈ q_clauses trips <-> userId = Some id /\ id ≠ "") /\
  (forall id, q_eq "user_id" id ∈ q_clauses notes <-> id = owner) /\
  (getExpenseApplications (D := D) handleSupabaseError (Some "")).1
    = (getExpenseApplications (D := D) handleSupabaseError None).1 /\
  (getBusinessTripApplications (D := D) handleSupabaseError (Some "")).1
    = (getBusinessTripApplications (D := D) handleSupabaseError None).1 /\
  Forall (fun q => q_select "*" ∈ q_clauses q /\ q_order "created_at" false ∈ q_clauses q)
    [expenses; trips; notes].
Proof.
  cbv zeta. unfold getExpenseApplications, getBusinessTripApplications, getNotifications.
  simpl.
  assert (Hlist : forall table id,
             q_eq "user_id" id ∈
               q_clauses
                 match userId with
                 | Some id0 =>
                     if truthy id0
                     then q_add (q_eq "user_id" id0)
                            {| q_from := table;
                               q_clauses := [q_select "*"; q_order "created_at" false] |}
                     else {| q_from := table;
                             q_clauses := [q_select "*"; q_order "created_at" false] |}
                 | None => {| q_from := table;
                              q_clauses := [q_select "*"; q_order "created_at" false] |}
                 end
             <-> userId = Some id /\ id ≠ "").
  { intros table id. destruct userId as [id0 |]; simpl.
    - destruct (truthy id0) eqn:Ht; simpl.
      + rewrite !elem_of_cons, elem_of_nil. apply truthy_spec in Ht. split.
        * intros [? | [? | [[= ->] | []]]]; done.
        * intros [[= ->] _]. auto.
      + rewrite !elem_of_cons, elem_of_nil. split.
        * intros [? | [? | []]]; done.
        * intros [[= ->] Hne]. apply truthy_spec in Hne. congruence.
    - rewrite !elem_of_cons, elem_of_nil. split; [intros [? | [? | []]]; done | by intros []]. }
  split; [apply Hlist |]. split; [apply Hlist |]. split.
  - intros id. rewrite !elem_of_cons, elem_of_nil. split.
    + intros [? | [[= ->] | [? | []]]]; done.
    + intros ->. auto.
  - split; [done |]. split; [done |].
    repeat apply Forall_cons_2; try apply Forall_nil_2.
    + destruct userId as [id0 |]; simpl; [destruct (truthy id0); simpl |];
        split; repeat constructor.
    + destruct userId as [id0 |]; simpl; [destruct (truthy id0); simpl |];
        split; repeat constructor.
    + split; repeat constructor.
Qed.

(** ** More on overlapping and successive calls *)

(** X19: [setUserFromSession] stores what it resolved whatever happened
    while it waited.  A [login] whose profile lookup settles after a
    [logout] has completed leaves the manager authenticated again: the
    state is empty once the sign-out has settled, and is the resolved
    state once the lookup has. *)
Theorem X19_lookup_after_logout m email password sessionUser profile
    (env_in env_out env_row : Env) d :
  env_in (auth_signInWithPassword email password)
    = Fulfilled {| data := Some sessionUser; error := None |} ->
  env_out auth_signOut = Fulfilled {| data := d; error := None |} ->
  env_row (profiles_select_single (User.id sessionUser))
    = Fulfilled {| data := Some profile; error := None |} ->
  let signed_out :=
    foldl turn {| manager := m; pending := [] |}
      [ Invoke (Login email password); Settle 0 env_in; Invoke Logout; Settle 1 env_out ] in
  authState (manager signed_out) = emptyAuthState /\
  awaited <$> pending signed_out = [Some (profiles_select_single (User.id sessionUser))] /\
  authState (manager (turn signed_out (Settle 0 env_row)))
    = state_of_profile profile sessionUser /\
  pending (turn signed_out (Settle 0 env_row)) = [].
Proof.
  intros Hin Hout Hrow. cbv zeta.
  unfold turn, task_of, forget, login, logout, setUserFromSession, bind, await. simpl.
  repeat (first [rewrite Hin | rewrite Hout | rewrite Hrow]; simpl). done.
Qed.

Lemma X19_lookup_after_logout_witness :
  let signed_out :=
    foldl turn {| manager := fresh; pending := [] |}
      [ Invoke (Login "a@x.com" "secret"); Settle 0 (env_of online); Invoke Logout;
        Settle 1 (env_of online) ] in
  isAuthenticated (authState (manager signed_out)) = false /\
  isAuthenticated (authState (manager (turn signed_out (Settle 0 (env_of online))))) = true.
Proof.
  intros signed_out.
  destruct (X19_lookup_after_logout fresh "a@x.com" "secret" ann ann_profile
              (env_of online) (env_of online) (env_of online) tt)
    as (H1 & _ & H3 & _); try reflexivity.
  unfold signed_out. rewrite H1, H3. split; reflexivity.
Defined.

(** X20: two successful [updateProfile] calls, one after the other: the
    second computes what it sends from the user the first one left, so
    the stored user is the second update spread over the first spread
    over the original, and the second request is keyed by the id the
    first one left locally, which is the first update's id when it
    carried one, even though the first request never sent that id. *)
Theorem X20_successive_updates env m currentUser first second now1 now2 row :
  user (authState m) = Some currentUser ->
  (forall values id,
     env (profiles_update_single values id) = Fulfilled {| data := row; error := None |}) ->
  let r1 := run (updateProfile first now1) env m in
  let r2 := run (updateProfile second now2) env (state_after r1) in
  requests r1 =
    [profiles_update_single (update_values first currentUser now1)
       (AuthUser.id currentUser)] /\
  requests r2 =
    [profiles_update_single (update_values second (spread currentUser first) now2)
       (default (AuthUser.id currentUser) (Partial.id first))] /\
  user (authState (state_after r2)) = Some (spread (spread currentUser first) second) /\
  (second = first -> user (authState (state_after r2)) = user (authState (state_after r1))).
Proof.
  intros Hu Henv. cbv zeta.
  rewrite (run_updateProfile_success env m currentUser first now1 row Hu Henv).
  cbn [state_after fst snd requests].
  rewrite (run_updateProfile_success env
             (notifyListeners (set_authState_user (spread currentUser first) m))
             (spread currentUser first) second now2 row eq_refl Henv).
  split; [done |]. split; [done |]. split; [done |].
  intros ->. simpl. f_equal. unfold spread. simpl.
  destruct first as [i e n c p ph r dp av]. simpl.
  by destruct i, e, n, c, p, ph, r, dp, av.
Qed.

Lemma X20_successive_updates_witness :
  let m := set_authState (state_of_profile ann_profile ann) fresh in
  let rekey := Partial.mk (Some "u2") None None None None None None None None in
  requests (run (updateProfile rename_to_Bob noon) (env_of online)
              (state_after (run (updateProfile rekey noon) (env_of online) m)))
    = [profiles_update_single
         {| ProfileUpdate.full_name := "Bob"; ProfileUpdate.role := role_user;
            ProfileUpdate.department := Some "Sales"; ProfileUpdate.avatar_url := None;
            ProfileUpdate.updated_at := noon |} "u2"].
Proof.
  intros m rekey.
  destruct (X20_successive_updates (env_of online) m ann_auth rekey rename_to_Bob noon noon
              (Some ann_profile)) as (_ & H & _).
  - reflexivity.
  - intros values id. reflexivity.
  - rewrite H. reflexivity.
Defined.
